(** * fcc-go: the URL shortener and the exercise tracker over a document store

    A shallow embedding of [shorturldao.go] and [exercisedao.go].  The Go
    functions are written as pure functions over an explicit collection
    state; the library calls they make ([strconv], [time], [primitive], the
    collection operations of the MongoDB driver) are modelled next to them.
    The collections are in-memory and sound: an operation fails only in the
    ways its model lists, and [json.Marshal] of the structs at hand does not
    fail, so the branches of the source that only log such failures are
    left out. *)

From Stdlib Require Import ZArith Ascii Lia Permutation Sorted.
From Stdlib Require String.
From stdpp Require Import gmap strings list fin_maps.

Local Open Scope Z_scope.
Local Set Warnings "-register-all".

(** [err == nil], for a call whose result and error are kept as an option. *)
Definition isSome {A : Type} (o : option A) : bool :=
  match o with
  | Some _ => true
  | None => false
  end.

(** ** [strconv]: decimal parsing and base-n formatting *)

Module strconv.

Definition isDigit (c : ascii) : bool :=
  ((48 <=? N_of_ascii c) && (N_of_ascii c <=? 57))%N.

Definition digitVal (c : ascii) : Z := Z.of_N (N_of_ascii c) - 48.

Fixpoint leadingInt (s : string) (acc : Z) : option Z :=
  match s with
  | EmptyString => Some acc
  | String c r =>
      if isDigit c then leadingInt r (acc * 10 + digitVal c) else None
  end.

(** Go's [int] on the 64-bit targets. *)
Definition minInt : Z := - 2 ^ 63.
Definition maxInt : Z := 2 ^ 63 - 1.

(** [strconv.Atoi]: an optional sign, then one or more decimal digits, the
    value within [int]; [None] stands for a non-nil error. *)
Definition Atoi (s : string) : option Z :=
  match s with
  | EmptyString => None
  | String c r =>
      let '(neg, body) :=
        if Ascii.eqb c "-" then (true, r)
        else if Ascii.eqb c "+" then (false, r)
        else (false, s) in
      match body with
      | EmptyString => None
      | _ =>
          match leadingInt body 0 with
          | None => None
          | Some n =>
              let v := if neg then - n else n in
              if (minInt <=? v) && (v <=? maxInt) then Some v else None
          end
      end
  end.

(** The digit alphabet of [FormatInt]: 0-9 then a-z. *)
Definition digitChar (d : Z) : ascii :=
  if d <? 10 then ascii_of_N (Z.to_N (48 + d)) else ascii_of_N (Z.to_N (87 + d)).

(** The loop of [formatBits]: [for u >= b { a[i] = digits[u%b]; u /= b }]
    and the last digit [a[i] = digits[u]]. *)
Fixpoint formatBits (fuel : nat) (u b : Z) (acc : string) : string :=
  match fuel with
  | O => acc
  | S fuel' =>
      if b <=? u
      then formatBits fuel' (u / b) b (String (digitChar (u mod b)) acc)
      else String (digitChar u) acc
  end.

(** [strconv.FormatInt i base], for [2 <= base <= 36]. *)
Definition FormatInt (i base : Z) : string :=
  let u := Z.abs i in
  let a := formatBits (S (Z.to_nat (Z.log2 u))) u base EmptyString in
  if i <? 0 then String "-" a else a.

End strconv.

(** ** [time]: the layout [2006-01-02] *)

Module time.

(** A [time.Time] as the store holds it: milliseconds since the Unix
    epoch (a BSON datetime). *)
Abbreviation Time := Z.

Definition isLeap (y : Z) : bool :=
  (y mod 4 =? 0) && (negb (y mod 100 =? 0) || (y mod 400 =? 0)).

Definition daysIn (m y : Z) : Z :=
  if m =? 2 then (if isLeap y then 29 else 28)
  else if (m =? 4) || (m =? 6) || (m =? 9) || (m =? 11) then 30
  else 31.

(** Days from 1970-01-01 to the civil date [y-m-d]. *)
Definition daysSinceEpoch (y m d : Z) : Z :=
  let y' := if m <=? 2 then y - 1 else y in
  let era := y' / 400 in
  let yoe := y' - era * 400 in
  let mp := if 2 <? m then m - 3 else m + 9 in
  let doy := (153 * mp + 2) / 5 + d - 1 in
  let doe := yoe * 365 + yoe / 4 - yoe / 100 + doy in
  era * 146097 + doe - 719468.

Definition Date (y m d : Z) : Time := daysSinceEpoch y m d * 86400000.

(** [n] leading decimal digits of [s], and the rest. *)
Fixpoint getnum (n : nat) (s : string) (acc : Z) : option (Z * string) :=
  match n with
  | O => Some (acc, s)
  | S n' =>
      match s with
      | String c r =>
          if strconv.isDigit c
          then getnum n' r (acc * 10 + strconv.digitVal c)
          else None
      | EmptyString => None
      end
  end.

Definition skip (c : ascii) (s : string) : option string :=
  match s with
  | String c' r => if Ascii.eqb c c' then Some r else None
  | EmptyString => None
  end.

(** [time.Parse("2006-01-02", value)]: four digits, two digits, two
    digits, nothing after; the month within 1..12 and the day within the
    month.  The instant is midnight UTC. *)
Definition Parse (value : string) : option Time :=
  match getnum 4 value 0 with
  | None => None
  | Some (year, v1) =>
  match skip "-" v1 with
  | None => None
  | Some v2 =>
  match getnum 2 v2 0 with
  | None => None
  | Some (month, v3) =>
  match skip "-" v3 with
  | None => None
  | Some v4 =>
  match getnum 2 v4 0 with
  | None => None
  | Some (day, rest) =>
      match rest with
      | EmptyString =>
          if (1 <=? month) && (month <=? 12) &&
             (1 <=? day) && (day <=? daysIn month year)
          then Some (Date year month day)
          else None
      | _ => None
      end
  end end end end end.

End time.

(** ** [primitive]: object ids *)

Module primitive.

(** An [ObjectID] is kept as its canonical (lower-case) 24-digit hex
    string, the value of [ObjectID.Hex]. *)
Abbreviation ObjectID := string.

Definition isHex (c : ascii) : bool :=
  let n := N_of_ascii c in
  (((48 <=? n) && (n <=? 57)) || ((97 <=? n) && (n <=? 102)) ||
   ((65 <=? n) && (n <=? 70)))%N.

Definition toLower (c : ascii) : ascii :=
  let n := N_of_ascii c in
  if ((65 <=? n) && (n <=? 90))%N then ascii_of_N (n + 32) else c.

Fixpoint allHex (s : string) : bool :=
  match s with
  | EmptyString => true
  | String c r => isHex c && allHex r
  end.

Fixpoint lower (s : string) : string :=
  match s with
  | EmptyString => EmptyString
  | String c r => String (toLower c) (lower r)
  end.

Definition ObjectIDFromHex (s : string) : option ObjectID :=
  if (String.length s =? 24)%nat && allHex s then Some (lower s) else None.

Definition IsValidObjectID (s : string) : bool :=
  isSome (ObjectIDFromHex s).

End primitive.

(** ** [encoding/json]: the payloads handed to the HTTP layer *)

Module json.

Inductive value : Type :=
| JString (s : string)
| JNumber (n : Z)
| JTime (t : time.Time)
| JArray (items : list value)
| JObject (fields : list (string * value)).

(** A byte slice returned to the handler, kept as the JSON text it holds:
    [Nil] is the nil slice (an empty response body), [Text v] the
    encoding of [v]; a literal of the source is written as its value. *)
Inductive Bytes : Type :=
| Nil
| Text (v : value).

Fixpoint lookup (k : string) (fields : list (string * value)) : option value :=
  match fields with
  | [] => None
  | (k', v) :: rest => if String.eqb k k' then Some v else lookup k rest
  end.

(** The member [k] of an object. *)
Definition field (k : string) (v : value) : option value :=
  match v with
  | JObject fields => lookup k fields
  | _ => None
  end.

Definition bodyField (k : string) (b : Bytes) : option value :=
  match b with
  | Nil => None
  | Text v => field k v
  end.

(** [ErrorMessage{Content: msg}] marshalled, and the literal error
    objects of the source: one member, error, holding [msg]. *)
Definition error (msg : string) : Bytes :=
  Text (JObject [("error", JString msg)]).

End json.

(** ** [shorturldao.go] *)

Module shorturl.

(** A document of the URL collection.  The collection is kept in
    insertion order and documents are never removed, so a document's
    [_id] is its position. *)
Record urlDoc : Type := mkDoc {
  original_url : string;
  short_url : string;
  times_visited : Z
}.

Abbreviation Collection := (list urlDoc).

Record urlDBRecord : Type := {
  ID : nat;
  OriginalURL : string;
  ShortURL : string;
  TimesVisited : Z
}.

Record urlReceipt : Type := {
  rOriginalURL : string;
  rShortURL : string
}.

Definition marshalReceipt (r : urlReceipt) : json.Bytes :=
  json.Text (json.JObject [("original_url", json.JString (rOriginalURL r));
                           ("short_url", json.JString (rShortURL r))]).

(** *** The collection operations the file calls *)

Inductive InsertError : Type := DuplicateKey | OtherError.

Definition CountDocuments (c : Collection) : Z := Z.of_nat (length c).

(** The first position at or after [i] whose document satisfies [p]. *)
Fixpoint findFrom (p : urlDoc -> bool) (i : nat) (c : Collection)
  : option (nat * urlDoc) :=
  match c with
  | [] => None
  | d :: rest => if p d then Some (i, d) else findFrom p (S i) rest
  end.

Definition FindOne (p : urlDoc -> bool) (c : Collection) : option (nat * urlDoc) :=
  findFrom p 0 c.

Definition byOriginalURL (u : string) (d : urlDoc) : bool :=
  String.eqb (original_url d) u.

Definition byShortURL (s : string) (d : urlDoc) : bool :=
  String.eqb (short_url d) s.

(** [InsertOne] under the collection's unique index on [original_url]
    (the one [mongo.IsDuplicateKeyError] answers to). *)
Definition InsertOne (d : urlDoc) (c : Collection) : Collection * option InsertError :=
  match FindOne (byOriginalURL (original_url d)) c with
  | Some _ => (c, Some DuplicateKey)
  | None => (c ++ [d], None)
  end.

Definition incVisited (d : urlDoc) : urlDoc :=
  mkDoc (original_url d) (short_url d) (times_visited d + 1).

(** [UpdateOne({_id: i}, {$inc: {times_visited: 1}})]. *)
Definition UpdateOne (i : nat) (c : Collection) : Collection :=
  alter incVisited i c.

Definition decodeRecord (x : nat * urlDoc) : urlDBRecord :=
  {| ID := fst x; OriginalURL := original_url (snd x);
     ShortURL := short_url (snd x); TimesVisited := times_visited (snd x) |}.

Definition decodeReceipt (x : nat * urlDoc) : urlReceipt :=
  {| rOriginalURL := original_url (snd x); rShortURL := short_url (snd x) |}.

(** *** [insertURL] *)
Definition insertURL (newURL : string) (c : Collection) : Collection * json.Bytes :=
  let dbSize := CountDocuments c in
  let shortURL := strconv.FormatInt dbSize 36 in
  let newDoc := mkDoc newURL shortURL 0 in
  match InsertOne newDoc c with
  | (c', Some DuplicateKey) =>
      (* This URL is already in the database, so find its record *)
      let oldDoc :=
        match FindOne (byOriginalURL newURL) c' with
        | Some x => decodeReceipt x
        | None => {| rOriginalURL := ""; rShortURL := "" |}
        end in
      (c', marshalReceipt oldDoc)
  | (c', Some OtherError) =>
      (c', json.error "failed when inserting into database")
  | (c', None) =>
      (c', marshalReceipt {| rOriginalURL := newURL; rShortURL := shortURL |})
  end.

(** *** [getOriginalURL] *)
Definition getOriginalURL (sURL : string) (c : Collection) : Collection * string :=
  match FindOne (byShortURL sURL) c with
  | None => (c, "")
  | Some x =>
      let foundDoc := decodeRecord x in
      (UpdateOne (ID foundDoc) c, OriginalURL foundDoc)
  end.

(** The collections the two operations build from the empty one. *)
Inductive Reachable : Collection -> Prop :=
| reach_empty : Reachable []
| reach_insert u c : Reachable c -> Reachable (fst (insertURL u c))
| reach_resolve s c : Reachable c -> Reachable (fst (getOriginalURL s c)).

End shorturl.

(** ** [exercisedao.go] *)

Module exercise.

Import primitive json.

Record ExerciseRecord : Type := mkExercise {
  Description : string;
  Duration : Z;
  Date : time.Time
}.

(** The struct a user document is decoded into; it has the fields
    [_id], [username] and [log] and no other. *)
Record ExerciseUserRecord : Type := mkRecord {
  ID : string;
  Username : string;
  Log : list ExerciseRecord
}.

Record ExerciseAddedReceipt : Type := mkReceipt {
  rID : string;
  rUsername : string;
  rDescription : string;
  rDuration : Z;
  rDate : time.Time
}.

(** A document of the exercise collection, stored under its [_id]; a
    user that was only created has no [log] field yet. *)
Record userDoc : Type := mkUser {
  username : string;
  log : option (list ExerciseRecord)
}.

(** *** [json.Marshal] of the three structs, by their tags *)

Definition marshalExercise (e : ExerciseRecord) : value :=
  JObject [("description", JString (Description e));
           ("duration", JNumber (Duration e));
           ("date", JTime (Date e))].

(** [log] is tagged omitempty. *)
Definition marshalUserRecord (r : ExerciseUserRecord) : Bytes :=
  Text (JObject ([("_id", JString (ID r)); ("username", JString (Username r))] ++
                 match Log r with
                 | [] => []
                 | l => [("log", JArray (marshalExercise <$> l))]
                 end)).

Definition marshalAddedReceipt (r : ExerciseAddedReceipt) : Bytes :=
  Text (JObject [("_id", JString (rID r)); ("username", JString (rUsername r));
                 ("description", JString (rDescription r));
                 ("duration", JNumber (rDuration r));
                 ("date", JTime (rDate r))]).

(** *** The aggregation pipeline *)

(** The stages the file writes as [bson.M] literals. *)
Inductive Stage : Type :=
| MatchUser (id : ObjectID)    (* $match: $and [_id = id; log $exists] *)
| AddFieldsCount               (* $addFields: count = $size of $log *)
| Unwind                       (* $unwind: $log *)
| SortByDate                   (* $sort: log.date ascending *)
| MatchDateRange (from to : time.Time)  (* $match: $and [log.date $gte; log.date $lte] *)
| MatchDateFrom (from : time.Time)      (* $match: log.date $gte *)
| MatchDateTo (to : time.Time)          (* $match: log.date $lte *)
| Limit (n : Z)                (* $limit *)
| Regroup.                     (* $group by _id: $first username, $first count, $push log *)

Definition unwindStage : Stage := Unwind.
Definition sortStage : Stage := SortByDate.
Definition regroupStage : Stage := Regroup.
Definition matchStage (userIDObject : ObjectID) : Stage := MatchUser userIDObject.
Definition addFieldsStage : Stage := AddFieldsCount.

(** A request parameter that is empty or does not parse is not valid;
    the option holds the parsed value together with the validity flag. *)
Definition dateParam (s : string) : option time.Time :=
  if (0 <? String.length s)%nat then time.Parse s else None.

Definition limitParam (s : string) : option Z :=
  if (0 <? String.length s)%nat then strconv.Atoi s else None.

(** The pipeline [getExerciseLogsFromUser] builds. *)
Definition pipeline (userIDObject : ObjectID) (fromDate toDate limit : string)
  : list Stage :=
  let pipe := [matchStage userIDObject] in
  let pipe := pipe ++ [addFieldsStage] in
  let fromDateObj := dateParam fromDate in
  let toDateObj := dateParam toDate in
  let limitVal := limitParam limit in
  let fromDateWasValid := isSome fromDateObj in
  let toDateWasValid := isSome toDateObj in
  let limitWasValid := isSome limitVal in
  if fromDateWasValid || toDateWasValid || limitWasValid
  then
    let pipe := pipe ++ [unwindStage; sortStage] in
    let pipe :=
      match fromDateObj, toDateObj with
      | Some f, Some t => pipe ++ [MatchDateRange f t]
      | Some f, None => pipe ++ [MatchDateFrom f]
      | None, Some t => pipe ++ [MatchDateTo t]
      | None, None => pipe
      end in
    let pipe :=
      match limitVal with
      | Some n => pipe ++ [Limit n]
      | None => pipe
      end in
    pipe ++ [regroupStage]
  else pipe.

(** *** The store's side of an aggregation *)

(** The value of the field [log] while a pipeline runs: the stored array,
    one of its entries after [$unwind], the pushed values after [$group]. *)
Inductive LogVal : Type :=
| LogEntry (e : ExerciseRecord)
| LogArray (vs : list LogVal).

Record aggDoc : Type := mkAgg {
  a_id : ObjectID;
  a_username : string;
  a_count : option Z;
  a_log : option LogVal
}.

Definition docOf (kv : ObjectID * userDoc) : aggDoc :=
  mkAgg (fst kv) (username (snd kv)) None
        ((fun es => LogArray (LogEntry <$> es)) <$> log (snd kv)).

(** The values the path [log.date] reaches. *)
Definition logDates (d : aggDoc) : list time.Time :=
  match a_log d with
  | None => []
  | Some (LogEntry e) => [Date e]
  | Some (LogArray vs) =>
      flat_map (fun v => match v with LogEntry e => [Date e] | LogArray _ => [] end) vs
  end.

Definition minDate (ts : list time.Time) : option time.Time :=
  match ts with
  | [] => None
  | t :: r => Some (fold_left Z.min r t)
  end.

(** Ascending sort keys; a missing value sorts first. *)
Definition keyLe (a b : option time.Time) : bool :=
  match a, b with
  | None, _ => true
  | Some _, None => false
  | Some x, Some y => x <=? y
  end.

Section Sorting.
Context {A : Type} (key : A -> option time.Time).

Fixpoint insertOn (x : A) (l : list A) : list A :=
  match l with
  | [] => [x]
  | y :: r => if keyLe (key x) (key y) then x :: y :: r else y :: insertOn x r
  end.

(** A stable sort: among equal keys the input order stays. *)
Fixpoint sortOn (l : list A) : list A :=
  match l with
  | [] => []
  | x :: r => insertOn x (sortOn r)
  end.
End Sorting.

Definition setLog (d : aggDoc) (v : LogVal) : aggDoc :=
  mkAgg (a_id d) (a_username d) (a_count d) (Some v).

Definition unwind (d : aggDoc) : list aggDoc :=
  match a_log d with
  | None => []
  | Some (LogEntry e) => [d]
  | Some (LogArray vs) => setLog d <$> vs
  end.

Definition addCount (d : aggDoc) : option aggDoc :=
  match a_log d with
  | Some (LogArray vs) =>
      Some (mkAgg (a_id d) (a_username d) (Some (Z.of_nat (length vs))) (a_log d))
  | _ => None
  end.

Definition pushLog (acc : list LogVal) (d : aggDoc) : list LogVal :=
  match a_log d with
  | Some v => acc ++ [v]
  | None => acc
  end.

(** One more row for [$group]: it joins the group of its [_id], or opens
    a new one with its username and count. *)
Fixpoint addRow (groups : list (aggDoc * list LogVal)) (d : aggDoc)
  : list (aggDoc * list LogVal) :=
  match groups with
  | [] => [(d, pushLog [] d)]
  | (g, vs) :: rest =>
      if String.eqb (a_id g) (a_id d)
      then (g, pushLog vs d) :: rest
      else (g, vs) :: addRow rest d
  end.

Definition regroup (rows : list aggDoc) : list aggDoc :=
  (fun gv => setLog (fst gv) (LogArray (snd gv))) <$> fold_left addRow rows [].

Definition anyDate (p : time.Time -> bool) (d : aggDoc) : bool :=
  existsb p (logDates d).

(** The effect of one stage on the stream of documents; [None] is a
    command the server rejects ([$size] of what is no array, a [$limit]
    that is not positive). *)
Definition runStage (st : Stage) (docs : list aggDoc) : option (list aggDoc) :=
  match st with
  | MatchUser id =>
      Some (List.filter
              (fun d => String.eqb (a_id d) id && isSome (a_log d)) docs)
  | AddFieldsCount => mapM addCount docs
  | Unwind => Some (flat_map unwind docs)
  | SortByDate => Some (sortOn (fun d => minDate (logDates d)) docs)
  | MatchDateRange from to =>
      Some (List.filter
              (fun d => anyDate (fun t => from <=? t) d && anyDate (fun t => t <=? to) d)
              docs)
  | MatchDateFrom from => Some (List.filter (anyDate (fun t => from <=? t)) docs)
  | MatchDateTo to => Some (List.filter (anyDate (fun t => t <=? to)) docs)
  | Limit n => if 0 <? n then Some (take (Z.to_nat n) docs) else None
  | Regroup => Some (regroup docs)
  end.

Fixpoint runPipeline (pipe : list Stage) (docs : list aggDoc) : option (list aggDoc) :=
  match pipe with
  | [] => Some docs
  | st :: rest =>
      match runStage st docs with
      | Some docs' => runPipeline rest docs'
      | None => None
      end
  end.

(** What the driver hands back: the documents not yet read, and the
    error [cursor.Err] reports, which running out of documents is not. *)
Record Cursor : Type := mkCursor {
  batch : list aggDoc;
  Err : option string
}.

(** [Collection.Aggregate]: [None] is the nil cursor that comes with a
    non-nil error. *)
Definition Aggregate (c : gmap ObjectID userDoc) (pipe : list Stage) : option Cursor :=
  match runPipeline pipe (docOf <$> map_to_list c) with
  | Some docs => Some (mkCursor docs None)
  | None => None
  end.

(** [cursor.Next] followed by [cursor.Decode]'s view of the document. *)
Definition Next (cur : Cursor) : option aggDoc := head (batch cur).

Definition decodeEntry (v : LogVal) : option ExerciseRecord :=
  match v with
  | LogEntry e => Some e
  | LogArray _ => None
  end.

(** [Decode] into an [ExerciseUserRecord]: the fields of the struct are
    filled, a field of the document the struct lacks is dropped. *)
Definition Decode (d : aggDoc) : option ExerciseUserRecord :=
  match a_log d with
  | None => Some (mkRecord (a_id d) (a_username d) [])
  | Some (LogArray vs) =>
      match mapM decodeEntry vs with
      | Some es => Some (mkRecord (a_id d) (a_username d) es)
      | None => None
      end
  | Some (LogEntry _) => None
  end.

(** [FindOne] by [_id], decoded. *)
Definition FindOne (c : gmap ObjectID userDoc) (id : ObjectID)
  : option ExerciseUserRecord :=
  match c !! id with
  | Some d => Some (mkRecord id (username d) (default [] (log d)))
  | None => None
  end.

(** [FindOneAndUpdate] by [_id] with [$push] on [log]: the document as it
    was before the update. *)
Definition FindOneAndUpdate (c : gmap ObjectID userDoc) (id : ObjectID)
    (e : ExerciseRecord) : gmap ObjectID userDoc * option ExerciseUserRecord :=
  match c !! id with
  | Some d =>
      (<[id := mkUser (username d) (Some (default [] (log d) ++ [e]))]> c,
       Some (mkRecord id (username d) (default [] (log d))))
  | None => (c, None)
  end.

(** *** [addExerciseToUser]; [now] is the reading of [time.Now] *)
Definition addExerciseToUser (now : time.Time) (userID desc duration date : string)
    (c : gmap ObjectID userDoc) : gmap ObjectID userDoc * Bytes :=
  if negb (IsValidObjectID userID) then (c, json.error "invalid id") else
  match ObjectIDFromHex userID with
  | None => (c, json.error "invalid id")
  | Some userIDObject =>
  match strconv.Atoi duration with
  | None => (c, json.error "invalid duration")
  | Some durationValue =>
  match (if (0 <? String.length date)%nat then time.Parse date else Some now) with
  | None => (c, json.error "invalid date")
  | Some dateObject =>
      let newExercise := mkExercise desc durationValue dateObject in
      match FindOneAndUpdate c userIDObject newExercise with
      | (c', None) => (c', json.error ("unable to add exercise to" +:+ userID))
      | (c', Some updatedDoc) =>
          (c', marshalAddedReceipt
                 (mkReceipt (ID updatedDoc) (Username updatedDoc)
                            desc durationValue dateObject))
      end
  end end end.

(** *** [getExerciseLogsFromUser] *)

Inductive Outcome : Type :=
| Returns (b : Bytes)
| NilCursorPanic.   (* [cursor.Next] on the nil cursor of a failed Aggregate *)

Definition getExerciseLogsFromUser (userID fromDate toDate limit : string)
    (c : gmap ObjectID userDoc) : Outcome :=
  if negb (IsValidObjectID userID) then Returns (json.error "invalid id") else
  match ObjectIDFromHex userID with
  | None => Returns (json.error "invalid id")
  | Some userIDObject =>
      let pipe := pipeline userIDObject fromDate toDate limit in
      (* Execute the search; an error is only logged *)
      match Aggregate c pipe with
      | None => NilCursorPanic
      | Some cursor =>
          (* Get the resulting document from the cursor *)
          let docJSON :=
            match Next cursor with
            | Some d =>
                match Decode d with
                | None => json.error "Cursor.Decode failed"
                | Some doc => marshalUserRecord doc
                end
            | None => Nil
            end in
          match Err cursor with
          | Some _ =>
              (* Perhaps the user exists but hasn't added to his/her log yet. *)
              match FindOne c userIDObject with
              | None => Returns (json.error "invalid user")
              | Some foundDoc => Returns (marshalUserRecord foundDoc)
              end
          | None => Returns docJSON
          end
      end
  end.

(** *** [createExerciseUser] *)

Record ExerciseUser : Type := mkExerciseUser {
  uID : string;
  uUsername : string
}.

Definition marshalUser (u : ExerciseUser) : Bytes :=
  Text (JObject [("_id", JString (uID u)); ("username", JString (uUsername u))]).

(** What a function hands to the handler when one of its answers is put
    together by string concatenation: the bytes of that answer are kept
    as they are, not read as JSON. *)
Inductive Written : Type :=
| Encoded (b : Bytes)
| RawText (s : string).

Definition quote : string := String (ascii_of_nat 34) EmptyString.

(** The [%v] form of an inserted id: the [String] method of [ObjectID]
    writes ObjectID, then the quoted hex digits in brackets. *)
Definition SprintfV (id : ObjectID) : string :=
  "ObjectID(" +:+ quote +:+ id +:+ quote +:+ ")".

(** [FindOne] by [username]: the first document that carries it. *)
Definition FindOneByUsername (c : gmap ObjectID userDoc) (uname : string)
  : option ExerciseUser :=
  match List.find (fun kv => String.eqb (username (snd kv)) uname) (map_to_list c) with
  | Some kv => Some (mkExerciseUser (fst kv) (username (snd kv)))
  | None => None
  end.

(** [InsertOne] of a document that holds the username alone, under the
    unique index on [username] the source counts on (The username is
    likely already taken); [newID] is the id the driver generates, and the
    store refuses an [_id] it already has.  [None] is a non-nil error. *)
Definition InsertOne (newID : ObjectID) (uname : string) (c : gmap ObjectID userDoc)
  : gmap ObjectID userDoc * option ObjectID :=
  match FindOneByUsername c uname, c !! newID with
  | None, None => (<[newID := mkUser uname None]> c, Some newID)
  | _, _ => (c, None)
  end.

Definition createExerciseUser (newID : ObjectID) (uname : string)
    (c : gmap ObjectID userDoc) : gmap ObjectID userDoc * Written :=
  match InsertOne newID uname c with
  | (c', None) =>
      (* The username is likely already taken, so try to find that user *)
      match FindOneByUsername c' uname with
      | None =>
          (c', RawText ("{" +:+ quote +:+ "error" +:+ quote +:+ ":" +:+ quote
                        +:+ "unable to create or find user with username"
                        +:+ uname +:+ quote +:+ "}"))
      | Some foundUser => (c', Encoded (marshalUser foundUser))
      end
  | (c', Some InsertedID) =>
      (c', Encoded (marshalUser (mkExerciseUser (SprintfV InsertedID) uname)))
  end.

End exercise.

(** ** [strings]: prefixes, the first occurrence, slices *)

Module Strings.

(** [s] without the leading [prefix], when it starts with it. *)
Fixpoint CutPrefix (s prefix : string) : option string :=
  match prefix, s with
  | EmptyString, _ => Some s
  | String a p, String b r => if Ascii.eqb a b then CutPrefix r p else None
  | String _ _, EmptyString => None
  end.

Definition HasPrefix (s prefix : string) : bool := isSome (CutPrefix s prefix).

Definition TrimPrefix (s prefix : string) : string :=
  match CutPrefix s prefix with
  | Some r => r
  | None => s
  end.

(** The position of the first occurrence of [substr] in [s], or -1. *)
Fixpoint Index (s substr : string) : Z :=
  if HasPrefix s substr then 0
  else match s with
       | EmptyString => -1
       | String _ r => let i := Index r substr in if i <? 0 then -1 else i + 1
       end.

Fixpoint firstn (n : nat) (s : string) : string :=
  match n, s with
  | S n', String c r => String c (firstn n' r)
  | _, _ => EmptyString
  end.

Fixpoint skipn (n : nat) (s : string) : string :=
  match n, s with
  | S n', String _ r => skipn n' r
  | _, _ => s
  end.

(** The slices [s[:hi]] and [s[lo:]]; [None] is the run-time panic of a
    bound outside [0..len(s)]. *)
Definition sliceTo (s : string) (hi : Z) : option string :=
  if (0 <=? hi) && (hi <=? Z.of_nat (String.length s))
  then Some (firstn (Z.to_nat hi) s) else None.

Definition sliceFrom (s : string) (lo : Z) : option string :=
  if (0 <=? lo) && (lo <=? Z.of_nat (String.length s))
  then Some (skipn (Z.to_nat lo) s) else None.

Fixpoint hasByte (c : ascii) (s : string) : bool :=
  match s with
  | EmptyString => false
  | String b r => Ascii.eqb b c || hasByte c r
  end.

End Strings.

(** ** [loadenv.go] *)

Module loadenv.

Import Strings.

(** How [loadEnvVars] ends: with the environment set, in the panic of a
    slice bound, or in [log.Fatal]. *)
Inductive Exit : Type :=
| Loaded (env : gmap string string)
| SlicePanic
| Fatal.

(** [os.Setenv]: it refuses an empty key, a key with = or a zero byte in
    it, and a value with a zero byte in it. *)
Definition Setenv (key value : string) (env : gmap string string)
  : option (gmap string string) :=
  if (String.length key =? 0)%nat || hasByte "=" key || hasByte zero key
     || hasByte zero value
  then None
  else Some (<[key := value]> env).

(** [loadEnvVars], from the lines the scanner reads off the file. *)
Fixpoint loadEnvVars (lines : list string) (env : gmap string string) : Exit :=
  match lines with
  | [] => Loaded env
  | currentLine :: rest =>
      let boundary := Index currentLine "=" in
      match sliceTo currentLine boundary with
      | None => SlicePanic
      | Some key =>
          match sliceFrom currentLine (boundary + 1) with
          | None => SlicePanic
          | Some value =>
              match Setenv key value env with
              | None => Fatal
              | Some env' => loadEnvVars rest env'
              end
          end
      end
  end.

End loadenv.

(** ** [server.go]: the handlers over the two collections *)

Module server.

Import Strings.

(** Form and query values, a key's values in their order; [Get] is the
    first value of the key, or the empty string. *)
Abbreviation Values := (list (string * string)).

Fixpoint Get (v : Values) (key : string) : string :=
  match v with
  | [] => EmptyString
  | (k, x) :: rest => if String.eqb k key then x else Get rest key
  end.

Section ShortURLHandlers.

(** [url.Parse] followed by [Hostname], and [net.LookupHost]: what the
    network and the URL grammar answer is left open. *)
Variable urlHostname : string -> option string.
Variable LookupHost : string -> bool.

(** [createShortURL]; [form] is [None] when [ParseForm] fails. *)
Definition createShortURL (form : option Values) (c : shorturl.Collection)
  : shorturl.Collection * json.Bytes :=
  match form with
  | None => (c, json.error "unable to parse form")
  | Some f =>
      let originalURL := Get f "url" in
      let originalURL := TrimPrefix originalURL "https://" in
      let originalURL :=
        if negb (HasPrefix originalURL "http://")
        then "http://" +:+ originalURL else originalURL in
      match urlHostname originalURL with
      | None => (c, json.error "invalid url")
      | Some hostname =>
          if LookupHost hostname
          then shorturl.insertURL (TrimPrefix originalURL "http://") c
          else (c, json.error "invalid hostname")
      end
  end.

End ShortURLHandlers.

(** The calls a handler makes on its response writer. *)
Inductive Action : Type :=
| NotFound
| Redirect (url : string) (code : Z).

(** [openShortURL] on the request path: the empty code is reported with
    [http.NotFound] and the handler goes on. *)
Definition openShortURL (path : string) (c : shorturl.Collection)
  : shorturl.Collection * list Action :=
  let shortURL := TrimPrefix path "/shorturl/go/" in
  let notFound := if (String.length shortURL =? 0)%nat then [NotFound] else [] in
  let '(c', originalURL) := shorturl.getOriginalURL shortURL c in
  if negb (HasPrefix originalURL "http://")
  then (c', notFound ++ [Redirect ("http://" +:+ originalURL) 307])
  else (c', notFound ++ [Redirect originalURL 307]).

Record Request : Type := mkRequest {
  Method : string;
  Path : string;
  Form : Values;
  Query : Values
}.

(** How [handleExerciseUsersPath] ends. *)
Inductive Handled : Type :=
| Wrote (w : exercise.Written)
| Answered404
| SliceBoundsPanic
| CursorPanic.

Section ExerciseHandler.

(** [getAllExerciseData], whose answer rests on what the driver's
    [Cursor.All] makes of the collection, is left open. *)
Variable getAllExerciseData : gmap string exercise.userDoc -> json.Bytes.

(** [handleExerciseUsersPath]; [now] and [newID] are the clock reading
    and the generated id the called function would draw. *)
Definition handleExerciseUsersPath (now : Z) (newID : string) (r : Request)
    (c : gmap string exercise.userDoc) : gmap string exercise.userDoc * Handled :=
  let requestDestination := TrimPrefix (Path r) "/exercise/users/" in
  if (String.length requestDestination =? 0)%nat && String.eqb (Method r) "GET"
  then (c, Wrote (exercise.Encoded (getAllExerciseData c)))
  else if (String.length requestDestination =? 0)%nat && String.eqb (Method r) "POST"
  then
    let username := Get (Form r) "username" in
    let '(c', newUserRecord) := exercise.createExerciseUser newID username c in
    (c', Wrote newUserRecord)
  else if (0 <? String.length requestDestination)%nat && String.eqb (Method r) "GET"
  then
    let slashIndex := Index requestDestination "/" in
    match sliceTo requestDestination slashIndex with
    | None => (c, SliceBoundsPanic)
    | Some id =>
        let fromDate := Get (Query r) "from" in
        let toDate := Get (Query r) "to" in
        let numRecordsToReturn := Get (Query r) "limit" in
        match exercise.getExerciseLogsFromUser id fromDate toDate numRecordsToReturn c with
        | exercise.Returns logs => (c, Wrote (exercise.Encoded logs))
        | exercise.NilCursorPanic => (c, CursorPanic)
        end
    end
  else if (0 <? String.length requestDestination)%nat && String.eqb (Method r) "POST"
  then
    let id := Get (Form r) ":_id" in
    let description := Get (Form r) "description" in
    let duration := Get (Form r) "duration" in
    let date := Get (Form r) "date" in
    let '(c', logAddedReceipt) :=
      exercise.addExerciseToUser now id description duration date c in
    (c', Wrote (exercise.Encoded logAddedReceipt))
  else (c, Answered404).

End ExerciseHandler.

End server.

(** * Definitions used to state the properties *)

Section Base36Spec.

(** The value of a base-36 digit and of a digit string. *)
Definition charVal (c : ascii) : Z :=
  let n := Z.of_N (N_of_ascii c) in
  if n <? 58 then n - 48 else n - 87.

Fixpoint valStr (s : string) : Z :=
  match s with
  | EmptyString => 0
  | String c r => charVal c * 36 ^ Z.of_nat (String.length r) + valStr r
  end.

End Base36Spec.

Section ShortURLSpec.
Import shorturl.

(** Every document carries the code of its own position. *)
Definition Coded (c : Collection) : Prop :=
  forall i d, c !! i = Some d -> short_url d = strconv.FormatInt (Z.of_nat i) 36.

End ShortURLSpec.

Section QuerySpec.
Import exercise primitive.

(** The order the sort keys put on the sorted elements. *)
Definition keyOrder {A : Type} (key : A -> option Z) (x y : A) : Prop :=
  keyLe (key x) (key y) = true.

(** The request's filters, as the function reads them. *)
Definition dateStages (f t : option Z) : list Stage :=
  match f, t with
  | Some a, Some b => [MatchDateRange a b]
  | Some a, None => [MatchDateFrom a]
  | None, Some b => [MatchDateTo b]
  | None, None => []
  end.

Definition limitStage (n : option Z) : list Stage :=
  match n with
  | Some k => [Limit k]
  | None => []
  end.

Definition anyValid (f t n : option Z) : bool :=
  isSome f || isSome t || isSome n.

Definition stagesFor (oid : string) (f t n : option Z) : list Stage :=
  [MatchUser oid; AddFieldsCount] ++
  if anyValid f t n
  then [Unwind; SortByDate] ++ dateStages f t ++ limitStage n ++ [Regroup]
  else [].

(** What the claim expects of the log: sorted by date, then the range,
    then the cap. *)
Definition inRange (f t : option Z) (e : ExerciseRecord) : bool :=
  match f with Some a => a <=? Date e | None => true end &&
  match t with Some b => Date e <=? b | None => true end.

Definition cap {A : Type} (n : option Z) (l : list A) : list A :=
  match n with
  | Some k => take (Z.to_nat k) l
  | None => l
  end.

Definition sortByDate (es : list ExerciseRecord) : list ExerciseRecord :=
  sortOn (fun e => Some (Date e)) es.

Definition selectLog (f t n : option Z) (es : list ExerciseRecord)
  : list ExerciseRecord :=
  cap n (List.filter (inRange f t) (sortByDate es)).

Definition row (oid nm : string) (cnt : option Z) (e : ExerciseRecord) : aggDoc :=
  mkAgg oid nm cnt (Some (LogEntry e)).

Definition whole (oid nm : string) (cnt : option Z) (es : list ExerciseRecord)
  : aggDoc :=
  mkAgg oid nm cnt (Some (LogArray (LogEntry <$> es))).

(** The cap the server accepts. *)
Definition capAccepted (n : option Z) : bool :=
  match n with
  | Some k => 0 <? k
  | None => true
  end.

(** The filter of the first stage. *)
Definition userMatch (oid : string) (d : aggDoc) : bool :=
  String.eqb (a_id d) oid && isSome (a_log d).

(** The documents the aggregation of [getExerciseLogsFromUser] yields. *)
Definition yielded (c : gmap string userDoc) (oid : string) (f t n : option Z)
  : option (list aggDoc) :=
  match c !! oid with
  | Some (mkUser nm (Some es)) =>
      let cnt := Some (Z.of_nat (length es)) in
      if anyValid f t n
      then if capAccepted n
           then Some match selectLog f t n es with
                     | [] => []
                     | kept => [whole oid nm cnt kept]
                     end
           else None
      else Some [whole oid nm cnt es]
  | _ => if anyValid f t n && negb (capAccepted n) then None else Some []
  end.

(** The body made of the cursor's first document. *)
Definition respond (docs : list aggDoc) : json.Bytes :=
  match head docs with
  | Some d =>
      match Decode d with
      | None => json.error "Cursor.Decode failed"
      | Some doc => marshalUserRecord doc
      end
  | None => json.Nil
  end.



(** The users of the examples: one with three entries, stored out of
    date order; one just created; one whose log is empty. *)
Definition alice : string := "507f1f77bcf86cd799439011".
Definition bob : string := "507f1f77bcf86cd799439012".
Definition carol : string := "507f1f77bcf86cd799439013".
Definition jan01 : ExerciseRecord := mkExercise "run" 30 (time.Date 2023 1 1).
Definition jan15 : ExerciseRecord := mkExercise "swim" 20 (time.Date 2023 1 15).
Definition feb01 : ExerciseRecord := mkExercise "bike" 45 (time.Date 2023 2 1).
Definition users : gmap string userDoc :=
  {[ alice := mkUser "alice" (Some [feb01; jan01; jan15]);
     bob := mkUser "bob" None;
     carol := mkUser "carol" (Some []) ]}.


End QuerySpec.

Section MoreSpec.
Import Strings shorturl exercise.

(** The collection after [n] resolutions of the code [s]. *)
Fixpoint resolved (n : nat) (s : string) (c : list urlDoc) : list urlDoc :=
  match n with
  | O => c
  | S n' => fst (getOriginalURL s (resolved n' s c))
  end.

(** A record after [n] visits. *)
Fixpoint visits (n : nat) (d : urlDoc) : urlDoc :=
  match n with
  | O => d
  | S n' => incVisited (visits n' d)
  end.

(** The date an added exercise gets: the parsed parameter, or the clock
    reading when the parameter is empty. *)
Definition entryDate (now : Z) (date : string) : option Z :=
  if (0 <? String.length date)%nat then time.Parse date else Some now.

(** A line the loader takes: a key that is not empty and has no = in it,
    and no zero byte in key or value. *)
Definition wellFormed (kv : string * string) : Prop :=
  fst kv <> EmptyString /\ hasByte "=" (fst kv) = false
  /\ hasByte zero (fst kv) = false /\ hasByte zero (snd kv) = false.

Definition lineOf (kv : string * string) : string := fst kv +:+ "=" +:+ snd kv.

Definition setAll (kvs : list (string * string)) (env : gmap string string)
  : gmap string string :=
  foldl (fun e kv => <[fst kv := snd kv]> e) env kvs.

(** Stand-ins for the examples: a URL grammar that takes every string, a
    network that resolves every host, a listing that is empty, and an id
    no example user has. *)
Definition sampleHostname (u : string) : option string :=
  Some (TrimPrefix u "http://").
Definition sampleLookup (hostname : string) : bool := true.
Definition sampleListing (c : gmap string userDoc) : json.Bytes := json.Nil.
Definition dave : string := "507f1f77bcf86cd7994390ff".
Definition twoURLs : list urlDoc :=
  [mkDoc "a.example" "0" 3; mkDoc "b.example" "1" 0].

End MoreSpec.

(** * The library models on sample inputs *)

Example Atoi_examples :
  strconv.Atoi "42" = Some 42 /\ strconv.Atoi "-7" = Some (-7) /\
  strconv.Atoi "0" = Some 0 /\ strconv.Atoi "+3" = Some 3 /\
  strconv.Atoi "" = None /\ strconv.Atoi "abc" = None /\
  strconv.Atoi "12x" = None /\ strconv.Atoi "-" = None /\
  strconv.Atoi "9223372036854775807" = Some (2 ^ 63 - 1) /\
  strconv.Atoi "9223372036854775808" = None.
Proof. vm_compute. repeat split; reflexivity. Qed.

Example FormatInt_examples :
  strconv.FormatInt 0 36 = "0" /\ strconv.FormatInt 35 36 = "z" /\
  strconv.FormatInt 36 36 = "10" /\ strconv.FormatInt 1295 36 = "zz" /\
  strconv.FormatInt 1296 36 = "100" /\ strconv.FormatInt 255 16 = "ff".
Proof. vm_compute. repeat split; reflexivity. Qed.

Example Parse_examples :
  time.Parse "1970-01-01" = Some 0 /\
  time.Parse "2023-01-01" = Some 1672531200000 /\
  time.Parse "2000-03-01" = Some 951868800000 /\
  time.Parse "2024-02-29" = Some 1709164800000 /\
  time.Parse "2023-02-29" = None /\ time.Parse "2023-13-01" = None /\
  time.Parse "2023-1-01" = None /\ time.Parse "2023-01-01x" = None /\
  time.Parse "" = None.
Proof. vm_compute. repeat split; reflexivity. Qed.

(** * Base-36 codes are read back *)

Section Base36.
Import strconv.

Lemma charVal_digitChar d : 0 <= d < 36 -> charVal (digitChar d) = d.
Proof.
  intros Hd. unfold charVal, digitChar.
  destruct (Z.ltb_spec d 10).
  - rewrite N_ascii_embedding by lia.
    rewrite Z2N.id by lia.
    destruct (Z.ltb_spec (48 + d) 58); lia.
  - rewrite N_ascii_embedding by lia.
    rewrite Z2N.id by lia.
    destruct (Z.ltb_spec (87 + d) 58); lia.
Qed.

Lemma valStr_formatBits fuel : forall u acc,
  0 <= u < 2 ^ Z.of_nat fuel ->
  valStr (formatBits fuel u 36 acc)
  = u * 36 ^ Z.of_nat (String.length acc) + valStr acc.
Proof.
  induction fuel as [|fuel IH]; intros u acc Hu.
  - simpl in *. assert (u = 0) by lia. subst. lia.
  - cbn [formatBits].
    destruct (Z.leb_spec 36 u) as [Hge|Hlt].
    + rewrite IH.
      * cbn [valStr String.length].
        rewrite charVal_digitChar by (apply Z.mod_pos_bound; lia).
        rewrite Nat2Z.inj_succ, Z.pow_succ_r by lia.
        pose proof (Z.div_mod u 36 ltac:(lia)) as Hdm.
        set (p := 36 ^ Z.of_nat (String.length acc)) in *.
        set (q := u / 36) in *. set (r := u mod 36) in *.
        clearbody p q r. subst u. ring.
      * rewrite Nat2Z.inj_succ, Z.pow_succ_r in Hu by lia.
        split; [apply Z.div_pos; lia|].
        apply Z.div_lt_upper_bound; lia.
    + cbn [valStr]. rewrite charVal_digitChar by lia. reflexivity.
Qed.

Lemma valStr_FormatInt n : 0 <= n -> valStr (FormatInt n 36) = n.
Proof.
  intros Hn. unfold FormatInt.
  destruct (Z.ltb_spec n 0); [lia|].
  rewrite Z.abs_eq by lia.
  rewrite valStr_formatBits; [simpl; lia|].
  split; [lia|].
  rewrite Nat2Z.inj_succ, Z2Nat.id by apply Z.log2_nonneg.
  destruct (Z.eq_dec n 0) as [->|]; [reflexivity|].
  apply Z.log2_spec. lia.
Qed.

Lemma FormatInt_inj a b :
  0 <= a -> 0 <= b -> FormatInt a 36 = FormatInt b 36 -> a = b.
Proof.
  intros Ha Hb E. apply (f_equal valStr) in E.
  now rewrite !valStr_FormatInt in E.
Qed.
End Base36.

(** * The URL collection *)

Section ShortURL.
Import shorturl.

Lemma findFrom_Some p i c j d :
  findFrom p i c = Some (j, d) ->
  exists k, j = (i + k)%nat /\ c !! k = Some d /\ p d = true /\
            forall k' d', (k' < k)%nat -> c !! k' = Some d' -> p d' = false.
Proof.
  revert i. induction c as [|x c IH]; intros i H; [discriminate|].
  cbn [findFrom] in H. destruct (p x) eqn:Hp.
  - injection H as <- <-. exists 0%nat. repeat split; auto with lia.
  - apply IH in H as (k & -> & Hk & Hd & Hmin).
    exists (S k). repeat split; auto with lia.
    intros [|k'] d' Hlt Hl; cbn in Hl.
    + congruence.
    + apply (Hmin k'); auto with lia.
Qed.

Lemma findFrom_None p i c :
  findFrom p i c = None <-> forall d, d ∈ c -> p d = false.
Proof.
  revert i. induction c as [|x c IH]; intros i; cbn [findFrom].
  - split; [intros _ d Hd; inversion Hd|reflexivity].
  - destruct (p x) eqn:Hp.
    + split; [discriminate|]. intros H.
      rewrite (H x) in Hp by apply list_elem_of_here. discriminate.
    + rewrite IH. split.
      * intros H d Hd. apply elem_of_cons in Hd as [->|Hd]; auto.
      * intros H d Hd. apply H. now apply list_elem_of_further.
Qed.

(** The first match is the only candidate when [p] singles out one
    position. *)
Lemma FindOne_at p c k d :
  c !! k = Some d -> p d = true ->
  (forall k' d', (k' < k)%nat -> c !! k' = Some d' -> p d' = false) ->
  FindOne p c = Some (k, d).
Proof.
  intros Hk Hp Hmin. unfold FindOne.
  destruct (findFrom p 0 c) as [[j d']|] eqn:E.
  - apply findFrom_Some in E as (k' & -> & Hk' & Hp' & Hmin').
    destruct (lt_eq_lt_dec k k') as [[Hlt| ->]|Hgt].
    + rewrite (Hmin' k d Hlt Hk) in Hp. discriminate.
    + simpl. congruence.
    + rewrite (Hmin k' d' Hgt Hk') in Hp'. discriminate.
  - rewrite findFrom_None in E.
    rewrite (E d) in Hp; [discriminate|].
    eapply list_elem_of_lookup_2; eauto.
Qed.

Lemma Coded_app c u :
  Coded c -> Coded (c ++ [mkDoc u (strconv.FormatInt (CountDocuments c) 36) 0]).
Proof.
  intros H i d Hi.
  apply lookup_app_Some in Hi as [Hi|[Hlen Hi]]; [now apply H|].
  apply list_lookup_singleton_Some in Hi as [Hi <-]. cbn.
  unfold CountDocuments. f_equal. lia.
Qed.

Lemma Coded_UpdateOne c i : Coded c -> Coded (UpdateOne i c).
Proof.
  intros H j d Hj. unfold UpdateOne in Hj.
  destruct (decide (i = j)) as [->|Hne].
  - rewrite list_lookup_alter_eq in Hj.
    destruct (c !! j) as [d0|] eqn:E; [|discriminate].
    cbn in Hj. injection Hj as <-. cbn. now apply H.
  - rewrite list_lookup_alter_ne in Hj by done. now apply H.
Qed.

Lemma insertURL_fresh u c :
  FindOne (byOriginalURL u) c = None ->
  insertURL u c =
    (c ++ [mkDoc u (strconv.FormatInt (CountDocuments c) 36) 0],
     marshalReceipt {| rOriginalURL := u;
                       rShortURL := strconv.FormatInt (CountDocuments c) 36 |}).
Proof. intros H. unfold insertURL, InsertOne. cbn. now rewrite H. Qed.

Lemma insertURL_known u c i d :
  FindOne (byOriginalURL u) c = Some (i, d) ->
  insertURL u c =
    (c, marshalReceipt {| rOriginalURL := original_url d; rShortURL := short_url d |}).
Proof. intros H. unfold insertURL, InsertOne. cbn. now rewrite H, H. Qed.

Lemma Reachable_Coded c : Reachable c -> Coded c.
Proof.
  induction 1 as [|u c _ IH|s c _ IH].
  - intros i d Hi. discriminate.
  - destruct (FindOne (byOriginalURL u) c) as [[i d]|] eqn:E.
    + now rewrite (insertURL_known _ _ _ _ E).
    + rewrite (insertURL_fresh _ _ E). now apply Coded_app.
  - unfold getOriginalURL.
    destruct (FindOne (byShortURL s) c); [|assumption].
    now apply Coded_UpdateOne.
Qed.

(** In a coded collection a code leads to its own position. *)
Lemma FindOne_code c k d :
  Coded c -> c !! k = Some d ->
  FindOne (byShortURL (strconv.FormatInt (Z.of_nat k) 36)) c = Some (k, d).
Proof.
  intros HC Hk. apply FindOne_at; [assumption| |].
  - unfold byShortURL. rewrite (HC _ _ Hk). apply String.eqb_refl.
  - intros k' d' Hlt Hk'. unfold byShortURL.
    rewrite (HC _ _ Hk'). apply String.eqb_neq. intros E.
    apply FormatInt_inj in E; lia.
Qed.
End ShortURL.

Section ShortURLClaims.
Import shorturl.

Lemma byOriginalURL_true u d : byOriginalURL u d = true <-> original_url d = u.
Proof. unfold byOriginalURL. apply String.eqb_eq. Qed.

Lemma byShortURL_false s d : byShortURL s d = false <-> short_url d <> s.
Proof. unfold byShortURL. apply String.eqb_neq. Qed.

Lemma FindOne_absent u c :
  (forall d, d ∈ c -> original_url d <> u) -> FindOne (byOriginalURL u) c = None.
Proof.
  intros H. apply findFrom_None. intros d Hd.
  destruct (byOriginalURL u d) eqn:E; [|reflexivity].
  apply byOriginalURL_true in E. now apply H in Hd.
Qed.

Lemma FindOne_present u c d :
  d ∈ c -> original_url d = u ->
  exists i d0, FindOne (byOriginalURL u) c = Some (i, d0) /\
               c !! i = Some d0 /\ original_url d0 = u.
Proof.
  intros Hd Hu.
  destruct (FindOne (byOriginalURL u) c) as [[i d0]|] eqn:E.
  - exists i, d0. split; [reflexivity|].
    apply findFrom_Some in E as (k & -> & Hk & Hp & _).
    split; [assumption|now apply byOriginalURL_true].
  - unfold FindOne in E. rewrite findFrom_None in E.
    apply E in Hd. apply byOriginalURL_true in Hu. congruence.
Qed.

(** C5: a mint call that inserts a new record gives it the base-36
    text of the number of records the collection holds at the call (0
    gives 0, 36 gives 10) and a visit counter of 0; the receipt carries
    the same code. *)
Theorem insertURL_new_record_code u c :
  Forall (fun d => original_url d <> u) c ->
  insertURL u c =
    (c ++ [mkDoc u (strconv.FormatInt (Z.of_nat (length c)) 36) 0],
     marshalReceipt {| rOriginalURL := u;
                       rShortURL := strconv.FormatInt (Z.of_nat (length c)) 36 |})
  /\ strconv.FormatInt 0 36 = "0" /\ strconv.FormatInt 36 36 = "10".
Proof.
  intros H. split; [|split; reflexivity].
  apply insertURL_fresh, FindOne_absent. now apply Forall_forall.
Qed.

Lemma insertURL_new_record_code_witness :
  insertURL "b.example" [mkDoc "a.example" "0" 3]
  = ([mkDoc "a.example" "0" 3; mkDoc "b.example" "1" 0],
     marshalReceipt {| rOriginalURL := "b.example"; rShortURL := "1" |}).
Proof.
  refine (proj1 (insertURL_new_record_code
                   "b.example" [mkDoc "a.example" "0" 3] _)).
  repeat constructor. simpl. discriminate.
Defined.

(** C6: when the original URL is already stored, mint inserts nothing
    and answers with the stored pair of the existing record; minting the
    same URL a second time gives the first call's answer again and leaves
    the collection as the first call left it. *)
Theorem insertURL_existing_url u c d :
  d ∈ c -> original_url d = u ->
  (exists i d0, c !! i = Some d0 /\ original_url d0 = u /\
     insertURL u c =
       (c, marshalReceipt {| rOriginalURL := u; rShortURL := short_url d0 |}))
  /\ (forall c0, insertURL u (fst (insertURL u c0)) =
                 (fst (insertURL u c0), snd (insertURL u c0))).
Proof.
  intros Hd Hu. split.
  - destruct (FindOne_present u c d Hd Hu) as (i & d0 & E & Hi & H0).
    exists i, d0. repeat split; try assumption.
    rewrite (insertURL_known _ _ _ _ E). now rewrite H0.
  - intros c0.
    destruct (FindOne (byOriginalURL u) c0) as [[i d0]|] eqn:E.
    + rewrite (insertURL_known _ _ _ _ E). cbn [fst snd].
      now rewrite (insertURL_known _ _ _ _ E).
    + rewrite (insertURL_fresh _ _ E). cbn [fst snd].
      set (new := mkDoc u (strconv.FormatInt (CountDocuments c0) 36) 0).
      assert (E' : FindOne (byOriginalURL u) (c0 ++ [new])
                   = Some (length c0, new)).
      { apply FindOne_at.
        - now rewrite lookup_app_r, Nat.sub_diag by lia.
        - now apply byOriginalURL_true.
        - intros k' d' Hlt Hk'. rewrite lookup_app_l in Hk' by lia.
          unfold FindOne in E. rewrite findFrom_None in E. apply E.
          eapply list_elem_of_lookup_2; eauto. }
      now rewrite (insertURL_known _ _ _ _ E').
Qed.

Lemma insertURL_existing_url_witness :
  (exists i d0,
     [mkDoc "a.example" "0" 3; mkDoc "b.example" "1" 0] !! i = Some d0
     /\ original_url d0 = "b.example"
     /\ insertURL "b.example" [mkDoc "a.example" "0" 3; mkDoc "b.example" "1" 0]
        = ([mkDoc "a.example" "0" 3; mkDoc "b.example" "1" 0],
           marshalReceipt {| rOriginalURL := "b.example";
                             rShortURL := short_url d0 |}))
  /\ (forall c0, insertURL "b.example" (fst (insertURL "b.example" c0))
                 = (fst (insertURL "b.example" c0),
                    snd (insertURL "b.example" c0))).
Proof.
  refine (insertURL_existing_url
            "b.example" [mkDoc "a.example" "0" 3; mkDoc "b.example" "1" 0]
            (mkDoc "b.example" "1" 0) _ _).
  - right. left.
  - reflexivity.
Defined.

(** C7: in a collection built by the service, resolving the short code
    that mint answers for [u] gives [u] back; the record is found by
    string equality on its short_url. *)
Theorem getOriginalURL_insertURL u c :
  Reachable c ->
  exists s i d,
    snd (insertURL u c) = marshalReceipt {| rOriginalURL := u; rShortURL := s |}
    /\ FindOne (byShortURL s) (fst (insertURL u c)) = Some (i, d)
    /\ short_url d = s
    /\ snd (getOriginalURL s (fst (insertURL u c))) = u.
Proof.
  intros HR.
  pose proof (Reachable_Coded _ (reach_insert u c HR)) as HC.
  destruct (FindOne (byOriginalURL u) c) as [[i d]|] eqn:E.
  - rewrite (insertURL_known _ _ _ _ E) in *. cbn [fst snd] in *.
    apply findFrom_Some in E as (k & -> & Hk & Hp & _).
    apply byOriginalURL_true in Hp. cbn [Nat.add].
    pose proof (FindOne_code _ _ _ HC Hk) as F.
    rewrite <- (HC _ _ Hk) in F.
    exists (short_url d), k, d. rewrite Hp. repeat split; try assumption.
    unfold getOriginalURL. rewrite F. cbn. assumption.
  - rewrite (insertURL_fresh _ _ E) in *. cbn [fst snd] in *.
    set (s := strconv.FormatInt (CountDocuments c) 36) in *.
    set (new := mkDoc u s 0) in *.
    assert (Hk : (c ++ [new]) !! length c = Some new)
      by now rewrite lookup_app_r, Nat.sub_diag by lia.
    pose proof (FindOne_code _ _ _ HC Hk) as F.
    exists s, (length c), new. repeat split; try assumption.
    unfold getOriginalURL. fold (CountDocuments c) in F. fold s in F.
    rewrite F. reflexivity.
Qed.

Lemma getOriginalURL_insertURL_witness :
  exists s i d,
    snd (insertURL "b.example" (fst (insertURL "a.example" [])))
    = marshalReceipt {| rOriginalURL := "b.example"; rShortURL := s |}
    /\ FindOne (byShortURL s)
         (fst (insertURL "b.example" (fst (insertURL "a.example" []))))
       = Some (i, d)
    /\ short_url d = s
    /\ snd (getOriginalURL s
              (fst (insertURL "b.example" (fst (insertURL "a.example" [])))))
       = "b.example".
Proof.
  refine (getOriginalURL_insertURL
            "b.example" (fst (insertURL "a.example" [])) _).
  apply reach_insert, reach_empty.
Defined.

(** C8: a short code no record carries resolves to the empty string and
    the collection, every visit counter included, stays as it was. *)
Theorem getOriginalURL_unknown_code s c :
  Forall (fun d => short_url d <> s) c -> getOriginalURL s c = (c, "").
Proof.
  intros H. unfold getOriginalURL.
  assert (E : FindOne (byShortURL s) c = None).
  { apply findFrom_None. intros d Hd. apply byShortURL_false.
    revert d Hd. now apply Forall_forall. }
  now rewrite E.
Qed.

Lemma getOriginalURL_unknown_code_witness :
  getOriginalURL "zz" [mkDoc "a.example" "0" 3; mkDoc "b.example" "1" 0]
  = ([mkDoc "a.example" "0" 3; mkDoc "b.example" "1" 0], "").
Proof.
  refine (getOriginalURL_unknown_code
            "zz" [mkDoc "a.example" "0" 3; mkDoc "b.example" "1" 0] _).
  repeat constructor; simpl; discriminate.
Defined.
End ShortURLClaims.

(** * The stable sort of the store *)

Section SortFacts.
Import exercise.
Context {A : Type} (key : A -> option Z).

Lemma keyLe_total a b : keyLe a b = false -> keyLe b a = true.
Proof. destruct a, b; cbn; try congruence; intros; lia. Qed.

Lemma keyLe_trans a b c : keyLe a b = true -> keyLe b c = true -> keyLe a c = true.
Proof. destruct a, b, c; cbn; try congruence; intros; lia. Qed.

Lemma insertOn_perm x l : Permutation (insertOn key x l) (x :: l).
Proof.
  induction l as [|y l IH]; cbn; [reflexivity|].
  destruct (keyLe (key x) (key y)); [reflexivity|].
  rewrite IH. apply perm_swap.
Qed.

Lemma sortOn_perm l : Permutation (sortOn key l) l.
Proof.
  induction l as [|x l IH]; cbn; [reflexivity|].
  rewrite insertOn_perm. now constructor.
Qed.

Lemma insertOn_sorted x l :
  StronglySorted (keyOrder key) l -> StronglySorted (keyOrder key) (insertOn key x l).
Proof.
  induction 1 as [|y l Hs IH Hall]; cbn.
  - repeat constructor.
  - destruct (keyLe (key x) (key y)) eqn:E.
    + constructor; [now constructor|].
      constructor; [exact E|].
      eapply Forall_impl; [exact Hall|].
      intros z Hz. eapply keyLe_trans; eauto.
    + constructor; [exact IH|].
      rewrite (insertOn_perm x l). constructor; [|exact Hall].
      now apply keyLe_total.
Qed.

Lemma sortOn_sorted l : StronglySorted (keyOrder key) (sortOn key l).
Proof.
  induction l as [|x l IH]; cbn; [constructor|]. now apply insertOn_sorted.
Qed.



(** Sorting commutes with a relabelling that keeps the keys. *)
Lemma insertOn_fmap {B} (f : A -> B) (key' : B -> option Z) x l :
  (forall a, key' (f a) = key a) ->
  insertOn key' (f x) (f <$> l) = f <$> insertOn key x l.
Proof.
  intros Hk. induction l as [|y l IH]; [reflexivity|].
  cbn. rewrite !Hk. destruct (keyLe (key x) (key y)); [reflexivity|].
  cbn. now rewrite <- IH.
Qed.

Lemma sortOn_fmap {B} (f : A -> B) (key' : B -> option Z) l :
  (forall a, key' (f a) = key a) ->
  sortOn key' (f <$> l) = f <$> sortOn key l.
Proof.
  intros Hk. induction l as [|x l IH]; [reflexivity|].
  cbn. rewrite <- (insertOn_fmap f key') by assumption. now rewrite <- IH.
Qed.
End SortFacts.

(** * Running the pipeline of [getExerciseLogsFromUser] *)

Section Pipeline.
Import exercise primitive.

Lemma pipeline_stagesFor oid fromDate toDate limit :
  pipeline oid fromDate toDate limit
  = stagesFor oid (dateParam fromDate) (dateParam toDate) (limitParam limit).
Proof.
  unfold pipeline, stagesFor, anyValid.
  destruct (dateParam fromDate), (dateParam toDate), (limitParam limit);
    reflexivity.
Qed.

Lemma filter_fmap {A B} (f : A -> B) (q : B -> bool) l :
  List.filter q (f <$> l) = f <$> List.filter (fun a => q (f a)) l.
Proof.
  induction l as [|x l IH]; [reflexivity|].
  cbn. destruct (q (f x)); cbn; now rewrite IH.
Qed.

Lemma filter_ext_bool {A} (p q : A -> bool) l :
  (forall a, p a = q a) -> List.filter p l = List.filter q l.
Proof.
  intros H. induction l as [|x l IH]; [reflexivity|].
  cbn. now rewrite H, IH.
Qed.

Lemma filter_true {A} (l : list A) : List.filter (fun _ => true) l = l.
Proof. induction l as [|x l IH]; [reflexivity|]. cbn. now rewrite IH. Qed.

Lemma unwind_whole oid nm cnt es :
  flat_map unwind [whole oid nm cnt es] = row oid nm cnt <$> es.
Proof.
  cbn. rewrite app_nil_r, <- list_fmap_compose. reflexivity.
Qed.

Lemma sort_rows oid nm cnt es :
  sortOn (fun d => minDate (logDates d)) (row oid nm cnt <$> es)
  = row oid nm cnt <$> sortByDate es.
Proof. now apply sortOn_fmap. Qed.

Lemma anyDate_row p oid nm cnt e : anyDate p (row oid nm cnt e) = p (Date e).
Proof. unfold anyDate. cbn. apply orb_false_r. Qed.

Lemma run_dateStages oid nm cnt f t rest l :
  runPipeline (dateStages f t ++ rest) (row oid nm cnt <$> l)
  = runPipeline rest (row oid nm cnt <$> List.filter (inRange f t) l).
Proof.
  destruct f as [a|], t as [b|]; cbn [dateStages app runPipeline runStage];
    [rewrite filter_fmap; rewrite (filter_ext_bool _ (inRange (Some a) (Some b)))
    |rewrite filter_fmap; rewrite (filter_ext_bool _ (inRange (Some a) None))
    |rewrite filter_fmap; rewrite (filter_ext_bool _ (inRange None (Some b)))
    |rewrite (filter_ext_bool (inRange None None) (fun _ => true))];
    try reflexivity;
    try (intros e; rewrite ?anyDate_row; unfold inRange;
         now rewrite ?andb_true_r).
  now rewrite filter_true.
Qed.

Lemma run_limitStage oid nm cnt n rest l :
  runPipeline (limitStage n ++ rest) (row oid nm cnt <$> l)
  = if capAccepted n then runPipeline rest (row oid nm cnt <$> cap n l) else None.
Proof.
  destruct n as [k|]; cbn; [|reflexivity].
  destruct (0 <? k); [|reflexivity]. now rewrite fmap_take.
Qed.

Lemma addRow_same oid nm cnt l : forall g vs,
  a_id g = oid ->
  fold_left addRow (row oid nm cnt <$> l) [(g, vs)]
  = [(g, vs ++ (LogEntry <$> l))].
Proof.
  induction l as [|e l IH]; intros g vs Hg; cbn.
  - now rewrite app_nil_r.
  - rewrite Hg, String.eqb_refl. rewrite IH by assumption.
    now rewrite <- app_assoc.
Qed.

Lemma regroup_rows oid nm cnt l :
  regroup (row oid nm cnt <$> l)
  = match l with [] => [] | _ => [whole oid nm cnt l] end.
Proof.
  destruct l as [|e l]; [reflexivity|].
  unfold regroup. cbn [fmap list_fmap fold_left addRow].
  change (list_fmap _ _ (row oid nm cnt) l) with (row oid nm cnt <$> l).
  now rewrite (addRow_same oid nm cnt l).
Qed.

(** The stages after the count, run on the one matched document. *)
Lemma run_filtered oid nm cnt f t n es :
  runPipeline ([Unwind; SortByDate] ++ dateStages f t ++ limitStage n ++ [Regroup])
              [whole oid nm cnt es]
  = if capAccepted n
    then Some match selectLog f t n es with
              | [] => []
              | kept => [whole oid nm cnt kept]
              end
    else None.
Proof.
  cbn [app runPipeline runStage].
  rewrite unwind_whole, sort_rows, run_dateStages, run_limitStage.
  destruct (capAccepted n); [|reflexivity].
  cbn [runPipeline runStage]. rewrite regroup_rows. unfold selectLog.
  now destruct (cap n _).
Qed.
End Pipeline.

Section Query.
Import exercise primitive.

Lemma match_absent (l : list (string * userDoc)) oid :
  oid ∉ l.*1 -> List.filter (userMatch oid) (docOf <$> l) = [].
Proof.
  induction l as [|[k v] l IH]; intros Hn; [reflexivity|].
  cbn in *. apply not_elem_of_cons in Hn as [Hne Hn].
  unfold userMatch at 1. cbn.
  replace (String.eqb k oid) with false
    by (symmetry; apply String.eqb_neq; congruence).
  cbn. now apply IH.
Qed.

Lemma match_present (l : list (string * userDoc)) oid u :
  NoDup l.*1 -> (oid, u) ∈ l ->
  List.filter (userMatch oid) (docOf <$> l)
  = match log u with
    | Some es => [whole oid (username u) None es]
    | None => []
    end.
Proof.
  induction l as [|[k v] l IH]; intros Hnd Hin; [inversion Hin|].
  cbn in Hnd. apply NoDup_cons in Hnd as [Hk Hnd].
  apply elem_of_cons in Hin as [E|Hin].
  - injection E as <- <-. cbn [fmap list_fmap List.filter].
    rewrite (match_absent l oid Hk).
    unfold userMatch. destruct u as [nm [es|]]; cbn;
      rewrite String.eqb_refl; reflexivity.
  - assert (k <> oid).
    { intros ->. apply Hk. apply list_elem_of_fmap. now exists (oid, u). }
    cbn [fmap list_fmap List.filter]. unfold userMatch at 1. cbn.
    replace (String.eqb k oid) with false
      by (symmetry; now apply String.eqb_neq).
    cbn. now apply IH.
Qed.

Lemma match_collection (c : gmap string userDoc) oid :
  List.filter (userMatch oid) (docOf <$> map_to_list c)
  = match c !! oid with
    | Some u =>
        match log u with
        | Some es => [whole oid (username u) None es]
        | None => []
        end
    | None => []
    end.
Proof.
  destruct (c !! oid) as [u|] eqn:E.
  - apply match_present; [apply NoDup_fst_map_to_list|].
    now apply elem_of_map_to_list.
  - apply match_absent. intros Hin.
    apply list_elem_of_fmap in Hin as ([k v] & -> & Hin).
    apply elem_of_map_to_list in Hin. cbn in E. congruence.
Qed.

Lemma mapM_decodeEntry es : mapM decodeEntry (LogEntry <$> es) = Some es.
Proof. induction es as [|e es IH]; [reflexivity|]. cbn. now rewrite IH. Qed.

Lemma Decode_whole oid nm cnt es :
  Decode (whole oid nm cnt es) = Some (mkRecord oid nm es).
Proof. unfold Decode. cbn. now rewrite mapM_decodeEntry. Qed.

(** The stages after the match, on no document at all. *)
Lemma run_rest_nil f t n :
  runPipeline (AddFieldsCount ::
               if anyValid f t n
               then [Unwind; SortByDate] ++ dateStages f t ++ limitStage n ++ [Regroup]
               else []) []
  = if anyValid f t n && negb (capAccepted n) then None else Some [].
Proof.
  cbn [runPipeline runStage mapM]. cbn.
  destruct (anyValid f t n); [|reflexivity].
  cbn [app runPipeline runStage flat_map sortOn andb].
  pose proof (run_dateStages "" "" None f t (limitStage n ++ [Regroup]) []) as H1.
  cbn [fmap list_fmap List.filter] in H1. rewrite H1.
  pose proof (run_limitStage "" "" None n [Regroup] []) as H2.
  cbn [fmap list_fmap] in H2. rewrite H2.
  destruct (capAccepted n); [|reflexivity].
  destruct n; cbn; [now rewrite take_nil|reflexivity].
Qed.

Lemma run_stagesFor c oid f t n :
  runPipeline (stagesFor oid f t n) (docOf <$> map_to_list c) = yielded c oid f t n.
Proof.
  unfold stagesFor, yielded.
  cbn [app]. cbn [runPipeline runStage].
  fold (userMatch oid). rewrite match_collection.
  destruct (c !! oid) as [[nm [es|]]|]; cbn [log username];
    try apply run_rest_nil.
  cbn [runPipeline runStage mapM]. cbn [addCount whole a_log a_id a_username].
  cbn. rewrite length_fmap.
  change (mkAgg oid nm (Some (Z.of_nat (length es)))
            (Some (LogArray (LogEntry <$> es))))
    with (whole oid nm (Some (Z.of_nat (length es))) es).
  destruct (anyValid f t n); [|reflexivity].
  apply run_filtered.
Qed.

(** With a well-formed id the function answers from the cursor alone:
    the aggregation leaves no cursor error, so the lookup by id that
    follows [cursor.Err] is never made. *)
Lemma query_answer userID oid fromDate toDate limit c :
  ObjectIDFromHex userID = Some oid ->
  getExerciseLogsFromUser userID fromDate toDate limit c
  = match yielded c oid (dateParam fromDate) (dateParam toDate) (limitParam limit) with
    | Some docs => Returns (respond docs)
    | None => NilCursorPanic
    end.
Proof.
  intros Hid. unfold getExerciseLogsFromUser, IsValidObjectID.
  rewrite Hid. cbn [negb]. unfold Aggregate.
  rewrite pipeline_stagesFor, run_stagesFor.
  destruct (yielded c oid _ _ _); reflexivity.
Qed.
End Query.

Section ExerciseClaims.
Import exercise primitive.

Lemma sortByDate_sorted es :
  StronglySorted (fun a b => Date a <= Date b) (sortByDate es).
Proof.
  pose proof (sortOn_sorted (fun e => Some (Date e)) es) as H.
  fold (sortByDate es) in H.
  induction H as [|e l _ IH Hall]; constructor; [exact IH|].
  eapply Forall_impl; [exact Hall|].
  intros b Hb. unfold keyOrder in Hb. cbn in Hb. lia.
Qed.



(** The queries of the specification's example user: from 2023-01-10 the
    last two entries in date order, to 2023-01-10 the first, limit 1 the
    entry of 2023-01-01, both filters the entry of 2023-01-15; without a
    filter the log comes back in its stored order. *)
Example queryLogs_spec_examples :
  getExerciseLogsFromUser alice "2023-01-10" "" "" users
  = Returns (marshalUserRecord (mkRecord alice "alice" [jan15; feb01]))
  /\ getExerciseLogsFromUser alice "" "2023-01-10" "" users
     = Returns (marshalUserRecord (mkRecord alice "alice" [jan01]))
  /\ getExerciseLogsFromUser alice "" "" "1" users
     = Returns (marshalUserRecord (mkRecord alice "alice" [jan01]))
  /\ getExerciseLogsFromUser alice "2023-01-10" "" "1" users
     = Returns (marshalUserRecord (mkRecord alice "alice" [jan15]))
  /\ getExerciseLogsFromUser alice "" "" "" users
     = Returns (marshalUserRecord (mkRecord alice "alice" [feb01; jan01; jan15])).
Proof. vm_compute. repeat split; reflexivity. Qed.

(** An exercise added to the user that was only created starts the log,
    and the unfiltered query then returns it. *)
Example addExercise_then_query :
  let '(c, receipt) := addExerciseToUser 0 bob "walk" "15" "2023-03-01" users in
  receipt = marshalAddedReceipt
              (mkReceipt bob "bob" "walk" 15 (time.Date 2023 3 1))
  /\ getExerciseLogsFromUser bob "" "" "" c
     = Returns (marshalUserRecord
                  (mkRecord bob "bob"
                     [mkExercise "walk" 15 (time.Date 2023 3 1)])).
Proof. vm_compute. split; reflexivity. Qed.








(** A user the aggregation does not match (no such id, or no log field)
    is answered by the nil body whatever the filters, unless a limit
    that is not positive stops the aggregation. *)
Lemma query_unmatched userID oid fromDate toDate limit c :
  ObjectIDFromHex userID = Some oid ->
  (c !! oid = None \/ exists nm, c !! oid = Some (mkUser nm None)) ->
  getExerciseLogsFromUser userID fromDate toDate limit c = Returns json.Nil
  \/ getExerciseLogsFromUser userID fromDate toDate limit c = NilCursorPanic.
Proof.
  intros Hid Hc. rewrite (query_answer _ _ _ _ _ _ Hid). unfold yielded.
  destruct Hc as [->|[nm ->]];
    destruct (anyValid _ _ _ && negb (capAccepted _)); auto.
Qed.

(** C2: the query on the user that was only created (no log field), and
    the filtered query on the user whose log is empty, return the nil
    body, although the lookup by id finds both users. *)
Theorem queryLogs_empty_log_nil_body :
  getExerciseLogsFromUser bob "" "" "" users = Returns json.Nil
  /\ FindOne users bob = Some (mkRecord bob "bob" [])
  /\ getExerciseLogsFromUser carol "" "" "5" users = Returns json.Nil
  /\ FindOne users carol = Some (mkRecord carol "carol" [])
  /\ getExerciseLogsFromUser carol "" "" "" users
     = Returns (marshalUserRecord (mkRecord carol "carol" [])).
Proof. vm_compute. repeat split; reflexivity. Qed.

(** C3: the query on a well-formed id that no user has returns the nil
    body, not the invalid user payload. *)
Theorem queryLogs_unknown_id_nil_body :
  ObjectIDFromHex "507f1f77bcf86cd7994390ff" = Some "507f1f77bcf86cd7994390ff"
  /\ users !! "507f1f77bcf86cd7994390ff" = None
  /\ getExerciseLogsFromUser "507f1f77bcf86cd7994390ff" "" "" "" users
     = Returns json.Nil
  /\ getExerciseLogsFromUser "507f1f77bcf86cd7994390ff" "" "" "" users
     <> Returns (json.error "invalid user").
Proof.
  assert (H : getExerciseLogsFromUser "507f1f77bcf86cd7994390ff" "" "" "" users
              = Returns json.Nil) by (vm_compute; reflexivity).
  repeat split; try assumption; try (vm_compute; reflexivity).
  rewrite H. discriminate.
Qed.





(** C9, as amended: a duration that is no integer leaves the collection
    as it was; the payload is invalid duration when the user id is
    well-formed, and invalid id otherwise. *)
Theorem addExercise_invalid_duration now userID desc duration date c :
  strconv.Atoi duration = None ->
  fst (addExerciseToUser now userID desc duration date c) = c
  /\ snd (addExerciseToUser now userID desc duration date c)
     = if IsValidObjectID userID
       then json.error "invalid duration"
       else json.error "invalid id".
Proof.
  intros Hd. unfold addExerciseToUser, IsValidObjectID.
  destruct (ObjectIDFromHex userID) as [oid|]; cbn; [|auto].
  rewrite Hd. auto.
Qed.

Lemma addExercise_invalid_duration_witness :
  addExerciseToUser 0 alice "run" "half an hour" "2023-03-01" users
  = (users, json.error "invalid duration").
Proof.
  pose proof (addExercise_invalid_duration
                0 alice "run" "half an hour" "2023-03-01" users eq_refl)
    as [H1 H2].
  destruct (addExerciseToUser 0 alice "run" "half an hour" "2023-03-01" users).
  cbn [fst snd] in *. now subst.
Defined.

(** C9 as stated fails on a malformed user id: the call answers invalid
    id, not invalid duration. *)
Lemma addExercise_invalid_duration_counterexample :
  strconv.Atoi "abc" = None
  /\ addExerciseToUser 0 "not-an-id" "run" "abc" "" users
     = (users, json.error "invalid id")
  /\ snd (addExerciseToUser 0 "not-an-id" "run" "abc" "" users)
     <> json.error "invalid duration".
Proof.
  assert (H : addExerciseToUser 0 "not-an-id" "run" "abc" "" users
              = (users, json.error "invalid id")) by reflexivity.
  split; [reflexivity|]. split; [exact H|]. rewrite H. discriminate.
Qed.



End ExerciseClaims.

(** * More of the URL collection *)

Section ShortURLMore.
Import shorturl.

Lemma incVisited_short d : short_url (incVisited d) = short_url d.
Proof. reflexivity. Qed.

Lemma FindOne_lookup p c i d :
  FindOne p c = Some (i, d) ->
  c !! i = Some d /\ p d = true
  /\ forall k d', (k < i)%nat -> c !! k = Some d' -> p d' = false.
Proof.
  intros H. apply findFrom_Some in H as (k & -> & Hk & Hp & Hmin). auto.
Qed.

Lemma FindOne_exists p c d0 :
  d0 ∈ c -> p d0 = true -> exists i d, FindOne p c = Some (i, d).
Proof.
  intros Hin Hp. destruct (FindOne p c) as [[i d]|] eqn:E; [eauto|].
  unfold FindOne in E. rewrite findFrom_None in E.
  rewrite (E _ Hin) in Hp. discriminate.
Qed.

(** X1: a short code some record carries resolves to the original URL of
    the first such record; the call adds one to that record's visit
    counter and leaves its two URLs, every other record and the number of
    records as they were. *)
Theorem getOriginalURL_known_code s c d0 :
  d0 ∈ c -> short_url d0 = s ->
  exists i d,
    c !! i = Some d /\ short_url d = s
    /\ (forall k d', (k < i)%nat -> c !! k = Some d' -> short_url d' <> s)
    /\ snd (getOriginalURL s c) = original_url d
    /\ length (fst (getOriginalURL s c)) = length c
    /\ fst (getOriginalURL s c) !! i
       = Some (mkDoc (original_url d) (short_url d) (times_visited d + 1))
    /\ (forall j, j <> i -> fst (getOriginalURL s c) !! j = c !! j).
Proof.
  intros Hin Hs.
  destruct (FindOne_exists (byShortURL s) c d0 Hin) as (i & d & E).
  { unfold byShortURL. now apply String.eqb_eq. }
  destruct (FindOne_lookup _ _ _ _ E) as (Hi & Hp & Hmin).
  exists i, d. unfold getOriginalURL. rewrite E. cbn [fst snd decodeRecord ID OriginalURL].
  unfold UpdateOne.
  split; [exact Hi|]. split; [now apply String.eqb_eq|].
  split; [intros k d' Hk Hd'; apply byShortURL_false; eauto|].
  split; [reflexivity|]. split; [apply length_alter|].
  split.
  - rewrite list_lookup_alter_eq, Hi. reflexivity.
  - intros j Hj. now rewrite list_lookup_alter_ne.
Qed.

Lemma getOriginalURL_known_code_witness :
  exists i d,
    twoURLs !! i = Some d /\ short_url d = "1"
    /\ (forall k d', (k < i)%nat -> twoURLs !! k = Some d' -> short_url d' <> "1")
    /\ snd (getOriginalURL "1" twoURLs) = original_url d
    /\ length (fst (getOriginalURL "1" twoURLs)) = length twoURLs
    /\ fst (getOriginalURL "1" twoURLs) !! i
       = Some (mkDoc (original_url d) (short_url d) (times_visited d + 1))
    /\ (forall j, j <> i -> fst (getOriginalURL "1" twoURLs) !! j = twoURLs !! j).
Proof.
  refine (getOriginalURL_known_code "1" twoURLs (mkDoc "b.example" "1" 0) _ _).
  - right. left.
  - reflexivity.
Defined.
End ShortURLMore.

Section ShortURLInvariants.
Import shorturl.

Lemma fmap_original_alter (i : nat) (c : list urlDoc) :
  original_url <$> alter incVisited i c = original_url <$> c.
Proof.
  apply list_eq. intros j. rewrite !list_lookup_fmap.
  destruct (decide (i = j)) as [->|Hne].
  - rewrite list_lookup_alter_eq. now destruct (c !! j).
  - now rewrite list_lookup_alter_ne.
Qed.

Lemma Coded_NoDup (c : list urlDoc) : Coded c -> NoDup (short_url <$> c).
Proof.
  intros HC. apply NoDup_alt. intros i j x Hi Hj.
  rewrite list_lookup_fmap in Hi, Hj.
  destruct (c !! i) as [di|] eqn:Ei; [|discriminate].
  destruct (c !! j) as [dj|] eqn:Ej; [|discriminate].
  cbn in Hi, Hj. injection Hi as Hi. injection Hj as Hj.
  rewrite (HC _ _ Ei) in Hi. rewrite (HC _ _ Ej) in Hj.
  assert (Z.of_nat i = Z.of_nat j); [|lia].
  apply FormatInt_inj; [lia|lia|congruence].
Qed.

Lemma Reachable_original_NoDup c : Reachable c -> NoDup (original_url <$> c).
Proof.
  induction 1 as [|u c _ IH|s c _ IH].
  - constructor.
  - destruct (FindOne (byOriginalURL u) c) as [[i d]|] eqn:E.
    + now rewrite (insertURL_known _ _ _ _ E).
    + rewrite (insertURL_fresh _ _ E). cbn [fst].
      rewrite fmap_app. apply NoDup_app. split; [exact IH|].
      split; [|cbn; apply NoDup_singleton].
      intros x Hx Hu. cbn in Hu. apply list_elem_of_singleton in Hu. subst x.
      apply list_elem_of_fmap in Hx as (d & Hd & Hin).
      unfold FindOne in E. rewrite findFrom_None in E.
      specialize (E d Hin). unfold byOriginalURL in E.
      apply String.eqb_neq in E. congruence.
  - unfold getOriginalURL.
    destruct (FindOne (byShortURL s) c); [|assumption].
    cbn [fst]. unfold UpdateOne. now rewrite fmap_original_alter.
Qed.

(** X2: in every collection the service builds, no two records share an
    original URL, no two share a short code, and the record at position i
    carries the base-36 text of i. *)
Theorem Reachable_codes_unique c :
  Reachable c ->
  NoDup (original_url <$> c) /\ NoDup (short_url <$> c)
  /\ forall i d, c !! i = Some d -> short_url d = strconv.FormatInt (Z.of_nat i) 36.
Proof.
  intros HR. split; [now apply Reachable_original_NoDup|].
  split; [apply Coded_NoDup|]; now apply Reachable_Coded.
Qed.

Lemma Reachable_codes_unique_witness :
  NoDup (original_url <$> fst (insertURL "b.example" (fst (insertURL "a.example" []))))
  /\ NoDup (short_url <$> fst (insertURL "b.example" (fst (insertURL "a.example" []))))
  /\ forall i d,
       fst (insertURL "b.example" (fst (insertURL "a.example" []))) !! i = Some d ->
       short_url d = strconv.FormatInt (Z.of_nat i) 36.
Proof.
  refine (Reachable_codes_unique
            (fst (insertURL "b.example" (fst (insertURL "a.example" [])))) _).
  apply reach_insert, reach_insert, reach_empty.
Defined.

(** X3: minting keeps every record where it was and adds at most one at
    the end; afterwards a record for the URL is stored. *)
Theorem insertURL_keeps_records u c :
  exists rest,
    fst (insertURL u c) = c ++ rest /\ (length rest <= 1)%nat
    /\ exists d, d ∈ fst (insertURL u c) /\ original_url d = u.
Proof.
  destruct (FindOne (byOriginalURL u) c) as [[i d]|] eqn:E.
  - rewrite (insertURL_known _ _ _ _ E). cbn [fst].
    exists []. rewrite app_nil_r. split; [reflexivity|]. split; [cbn; lia|].
    destruct (FindOne_lookup _ _ _ _ E) as (Hi & Hp & _).
    exists d. split; [eapply list_elem_of_lookup_2; eauto|].
    now apply byOriginalURL_true.
  - rewrite (insertURL_fresh _ _ E). cbn [fst].
    eexists. split; [reflexivity|]. split; [cbn; lia|].
    eexists. split; [apply elem_of_app; right; apply list_elem_of_here|reflexivity].
Qed.

Lemma FindOne_after_visit s (c : list urlDoc) i d :
  FindOne (byShortURL s) c = Some (i, d) ->
  FindOne (byShortURL s) (alter incVisited i c) = Some (i, incVisited d).
Proof.
  intros E. destruct (FindOne_lookup _ _ _ _ E) as (Hi & Hp & Hmin).
  apply FindOne_at.
  - now rewrite list_lookup_alter_eq, Hi.
  - exact Hp.
  - intros k d' Hk Hd'. rewrite list_lookup_alter_ne in Hd' by lia. eauto.
Qed.

Lemma visits_counter n d :
  visits n d = mkDoc (original_url d) (short_url d) (times_visited d + Z.of_nat n).
Proof.
  induction n as [|n IH].
  - destruct d. cbn. f_equal. lia.
  - cbn [visits]. rewrite IH. unfold incVisited. cbn. f_equal. lia.
Qed.

Lemma resolve_iter s (c : list urlDoc) i d n :
  FindOne (byShortURL s) c = Some (i, d) ->
  resolved n s c = <[i := visits n d]> c
  /\ FindOne (byShortURL s) (resolved n s c)
     = Some (i, visits n d).
Proof.
  intros E. destruct (FindOne_lookup _ _ _ _ E) as (Hi & _ & _).
  induction n as [|n [IH1 IH2]].
  - cbn. split; [|exact E]. symmetry. now apply list_insert_id.
  - cbn [resolved].
    set (cn := resolved n s c) in *.
    unfold getOriginalURL. rewrite IH2.
    cbn [fst decodeRecord ID]. unfold UpdateOne.
    split.
    + rewrite IH1. apply list_eq. intros j.
      destruct (decide (i = j)) as [<-|Hne].
      * rewrite list_lookup_alter_eq.
        rewrite !list_lookup_insert_eq by (eapply lookup_lt_Some; eauto).
        reflexivity.
      * rewrite list_lookup_alter_ne by done.
        now rewrite !list_lookup_insert_ne.
    + now apply FindOne_after_visit.
Qed.

(** X4: resolving a stored short code [n] times in a row returns the same
    original URL every time and leaves the collection as it was but for
    the visit counter of that record, which is [n] higher. *)
Theorem getOriginalURL_counts_visits s (c : list urlDoc) d0 n :
  d0 ∈ c -> short_url d0 = s ->
  exists i d,
    c !! i = Some d /\ short_url d = s
    /\ resolved n s c
       = <[i := mkDoc (original_url d) s (times_visited d + Z.of_nat n)]> c
    /\ forall k,
         snd (getOriginalURL s (resolved k s c))
         = original_url d.
Proof.
  intros Hin Hs.
  destruct (FindOne_exists (byShortURL s) c d0 Hin) as (i & d & E).
  { unfold byShortURL. now apply String.eqb_eq. }
  destruct (FindOne_lookup _ _ _ _ E) as (Hi & Hp & _).
  apply String.eqb_eq in Hp.
  exists i, d. split; [exact Hi|]. split; [exact Hp|]. split.
  - rewrite (proj1 (resolve_iter s c i d n E)), visits_counter. now rewrite Hp.
  - intros k. unfold getOriginalURL.
    rewrite (proj2 (resolve_iter s c i d k E)). cbn.
    now rewrite visits_counter.
Qed.

Lemma getOriginalURL_counts_visits_witness :
  exists i d,
    twoURLs !! i = Some d /\ short_url d = "0"
    /\ resolved 3 "0" twoURLs
       = <[i := mkDoc (original_url d) "0" (times_visited d + Z.of_nat 3)]> twoURLs
    /\ forall k, snd (getOriginalURL "0" (resolved k "0" twoURLs)) = original_url d.
Proof.
  refine (getOriginalURL_counts_visits "0" twoURLs (mkDoc "a.example" "0" 3) 3 _ _).
  - left.
  - reflexivity.
Defined.
End ShortURLInvariants.

(** * The handlers of the URL shortener *)

Section StringFacts.
Import Strings.

Lemma CutPrefix_app p s : CutPrefix (p +:+ s) p = Some s.
Proof.
  induction p as [|a p IH]; [now destruct s|].
  simpl. now rewrite Ascii.eqb_refl.
Qed.

Lemma CutPrefix_Some p : forall s r, CutPrefix s p = Some r -> s = p +:+ r.
Proof.
  induction p as [|a p IH]; intros s r H.
  - destruct s; cbn in H; now injection H as <-.
  - destruct s as [|b s]; simpl in H; [discriminate|].
    destruct (Ascii.eqb_spec a b) as [->|]; [|discriminate].
    change (String b s = String b (p +:+ r)). f_equal. now apply IH.
Qed.

Lemma TrimPrefix_app p s : TrimPrefix (p +:+ s) p = s.
Proof. unfold TrimPrefix. now rewrite CutPrefix_app. Qed.

Lemma HasPrefix_app p s : HasPrefix (p +:+ s) p = true.
Proof. unfold HasPrefix. now rewrite CutPrefix_app. Qed.

Lemma HasPrefix_false_TrimPrefix s p : HasPrefix s p = false -> TrimPrefix s p = s.
Proof. unfold HasPrefix, TrimPrefix. now destruct (CutPrefix s p). Qed.

(** Putting http:// in front when it is missing gives http:// followed
    by the string without it. *)
Lemma with_scheme v :
  (if negb (HasPrefix v "http://") then "http://" +:+ v else v)
  = "http://" +:+ TrimPrefix v "http://".
Proof.
  unfold HasPrefix, TrimPrefix.
  destruct (CutPrefix v "http://") as [r|] eqn:E; [|reflexivity].
  cbn [isSome negb]. now apply CutPrefix_Some.
Qed.
End StringFacts.

Section ShortURLHandlerFacts.
Import Strings shorturl server.

Variable urlHostname : string -> option string.
Variable LookupHost : string -> bool.

Lemma createShortURL_eq f c :
  let stored := TrimPrefix (TrimPrefix (Get f "url") "https://") "http://" in
  createShortURL urlHostname LookupHost (Some f) c
  = match urlHostname ("http://" +:+ stored) with
    | None => (c, json.error "invalid url")
    | Some hostname =>
        if LookupHost hostname then insertURL stored c
        else (c, json.error "invalid hostname")
    end.
Proof.
  intros stored. unfold createShortURL.
  rewrite with_scheme. fold stored. now rewrite TrimPrefix_app.
Qed.

(** X5: whatever scheme the submitted URL has, the URL that is parsed and
    looked up is http:// followed by the URL that is stored, which is the
    submitted one without a leading https:// and then without a leading
    http://; nothing is inserted unless the parse and the lookup succeed. *)
Theorem createShortURL_checks_then_stores f c :
  let stored := TrimPrefix (TrimPrefix (Get f "url") "https://") "http://" in
  createShortURL urlHostname LookupHost (Some f) c
  = match urlHostname ("http://" +:+ stored) with
    | None => (c, json.error "invalid url")
    | Some hostname =>
        if LookupHost hostname then insertURL stored c
        else (c, json.error "invalid hostname")
    end.
Proof. apply createShortURL_eq. Qed.

(** X6: a URL submitted bare, with http:// or with https:// in front is
    answered alike, and when its host resolves the bare URL is what is
    minted. *)
Theorem createShortURL_scheme_insensitive h f1 f2 f3 c :
  HasPrefix h "http://" = false -> HasPrefix h "https://" = false ->
  Get f1 "url" = h -> Get f2 "url" = "http://" +:+ h ->
  Get f3 "url" = "https://" +:+ h ->
  createShortURL urlHostname LookupHost (Some f2) c
    = createShortURL urlHostname LookupHost (Some f1) c
  /\ createShortURL urlHostname LookupHost (Some f3) c
     = createShortURL urlHostname LookupHost (Some f1) c
  /\ forall hostname,
       urlHostname ("http://" +:+ h) = Some hostname -> LookupHost hostname = true ->
       createShortURL urlHostname LookupHost (Some f1) c = insertURL h c.
Proof.
  intros Hh Hs E1 E2 E3.
  assert (S1 : TrimPrefix (TrimPrefix h "https://") "http://" = h).
  { now rewrite (HasPrefix_false_TrimPrefix _ _ Hs), (HasPrefix_false_TrimPrefix _ _ Hh). }
  assert (S2 : TrimPrefix (TrimPrefix ("http://" +:+ h) "https://") "http://" = h).
  { change (TrimPrefix ("http://" +:+ h) "https://") with ("http://" +:+ h).
    apply TrimPrefix_app. }
  assert (S3 : TrimPrefix (TrimPrefix ("https://" +:+ h) "https://") "http://" = h).
  { rewrite TrimPrefix_app. now apply HasPrefix_false_TrimPrefix. }
  rewrite !createShortURL_eq. cbv zeta.
  rewrite E1, E2, E3, S1, S2, S3. split; [reflexivity|]. split; [reflexivity|].
  intros hostname -> Hl. now rewrite Hl.
Qed.
End ShortURLHandlerFacts.

Lemma createShortURL_scheme_insensitive_witness :
  server.createShortURL sampleHostname sampleLookup
    (Some [("url", "http://a.example")]) twoURLs
  = server.createShortURL sampleHostname sampleLookup
      (Some [("url", "a.example")]) twoURLs
  /\ server.createShortURL sampleHostname sampleLookup
       (Some [("url", "https://a.example")]) twoURLs
     = server.createShortURL sampleHostname sampleLookup
         (Some [("url", "a.example")]) twoURLs
  /\ forall hostname,
       sampleHostname "http://a.example" = Some hostname ->
       sampleLookup hostname = true ->
       server.createShortURL sampleHostname sampleLookup
         (Some [("url", "a.example")]) twoURLs
       = shorturl.insertURL "a.example" twoURLs.
Proof.
  refine (createShortURL_scheme_insensitive sampleHostname sampleLookup
            "a.example" [("url", "a.example")] [("url", "http://a.example")]
            [("url", "https://a.example")] twoURLs _ _ _ _ _); reflexivity.
Defined.

Section OpenShortURL.
Import Strings shorturl server.

Lemma formatBits_nonempty fuel : forall u b acc,
  acc <> EmptyString -> strconv.formatBits fuel u b acc <> EmptyString.
Proof.
  induction fuel as [|fuel IH]; intros u b acc Hacc; cbn; [exact Hacc|].
  destruct (b <=? u); [apply IH|]; discriminate.
Qed.

Lemma FormatInt_nonempty i b : strconv.FormatInt i b <> EmptyString.
Proof.
  unfold strconv.FormatInt. destruct (i <? 0); [discriminate|].
  cbn [strconv.formatBits]. destruct (b <=? Z.abs i); [|discriminate].
  apply formatBits_nonempty. discriminate.
Qed.

(** The code minted for [u] in a collection built by the service, and the
    record it resolves to. *)
Lemma minted_code_resolves u c :
  Reachable c ->
  exists k d,
    snd (insertURL u c)
      = marshalReceipt {| rOriginalURL := u;
                          rShortURL := strconv.FormatInt (Z.of_nat k) 36 |}
    /\ FindOne (byShortURL (strconv.FormatInt (Z.of_nat k) 36)) (fst (insertURL u c))
       = Some (k, d)
    /\ original_url d = u.
Proof.
  intros HR.
  pose proof (Reachable_Coded _ (reach_insert u c HR)) as HC.
  destruct (FindOne (byOriginalURL u) c) as [[i d]|] eqn:E.
  - rewrite (insertURL_known _ _ _ _ E) in *. cbn [fst snd] in *.
    apply findFrom_Some in E as (k & -> & Hk & Hp & _).
    apply byOriginalURL_true in Hp. cbn [Nat.add].
    exists k, d. rewrite Hp, (HC _ _ Hk).
    split; [reflexivity|]. split; [now apply FindOne_code|reflexivity].
  - rewrite (insertURL_fresh _ _ E) in *. cbn [fst snd] in *.
    set (new := mkDoc u (strconv.FormatInt (CountDocuments c) 36) 0) in *.
    assert (Hk : (c ++ [new]) !! length c = Some new)
      by now rewrite lookup_app_r, Nat.sub_diag by lia.
    exists (length c), new.
    split; [reflexivity|]. split; [now apply FindOne_code|reflexivity].
Qed.

(** X7: [openShortURL] always ends in one redirect with status 307 to a
    target that starts with http://; for a code no record carries the
    target is http:// alone and the collection is untouched; for the empty
    code [http.NotFound] is called before the redirect. *)
Theorem openShortURL_always_redirects path c :
  let shortURL := TrimPrefix path "/shorturl/go/" in
  exists target,
    snd (openShortURL path c)
      = (if (String.length shortURL =? 0)%nat then [NotFound] else [])
        ++ [Redirect target 307]
    /\ HasPrefix target "http://" = true
    /\ (Forall (fun d => short_url d <> shortURL) c ->
        target = "http://" /\ fst (openShortURL path c) = c).
Proof.
  intros shortURL. unfold openShortURL. fold shortURL.
  destruct (getOriginalURL shortURL c) as [c' originalURL] eqn:E.
  assert (Hun : Forall (fun d => short_url d <> shortURL) c ->
                originalURL = EmptyString /\ c' = c).
  { intros H. unfold getOriginalURL in E.
    assert (F : FindOne (byShortURL shortURL) c = None).
    { apply findFrom_None. intros d Hd. apply byShortURL_false.
      revert d Hd. now apply Forall_forall. }
    rewrite F in E. now injection E as <- <-. }
  destruct (HasPrefix originalURL "http://") eqn:Hp; cbn [negb fst snd].
  - exists originalURL. split; [reflexivity|]. split; [exact Hp|].
    intros H. destruct (Hun H) as [-> _]. discriminate.
  - exists ("http://" +:+ originalURL). split; [reflexivity|].
    split; [apply HasPrefix_app|].
    intros H. destruct (Hun H) as [-> ->]. split; reflexivity.
Qed.

Lemma openShortURL_always_redirects_witness :
  openShortURL "/shorturl/go/zz" [mkDoc "a.example" "0" 3]
  = ([mkDoc "a.example" "0" 3], [Redirect "http://" 307]).
Proof.
  destruct (openShortURL_always_redirects
              "/shorturl/go/zz" [mkDoc "a.example" "0" 3])
    as (target & H1 & _ & H3).
  destruct H3 as [-> H4]; [repeat constructor; simpl; discriminate|].
  destruct (openShortURL "/shorturl/go/zz" [mkDoc "a.example" "0" 3]).
  cbn [fst snd] in *. now subst.
Defined.

Variable urlHostname : string -> option string.
Variable LookupHost : string -> bool.

(** X8: in a collection the service built, shortening a bare URL whose
    host resolves and then opening the short code of the answer redirects
    to http:// followed by that URL, with no [http.NotFound]. *)
Theorem createShortURL_then_openShortURL h hostname f c :
  Reachable c ->
  Get f "url" = h ->
  HasPrefix h "http://" = false -> HasPrefix h "https://" = false ->
  urlHostname ("http://" +:+ h) = Some hostname -> LookupHost hostname = true ->
  exists s,
    snd (createShortURL urlHostname LookupHost (Some f) c)
      = marshalReceipt {| rOriginalURL := h; rShortURL := s |}
    /\ snd (openShortURL ("/shorturl/go/" +:+ s)
              (fst (createShortURL urlHostname LookupHost (Some f) c)))
       = [Redirect ("http://" +:+ h) 307].
Proof.
  intros HR Hf Hh Hs Hu Hl.
  assert (E : createShortURL urlHostname LookupHost (Some f) c = insertURL h c).
  { rewrite createShortURL_eq. cbv zeta. rewrite Hf.
    rewrite (HasPrefix_false_TrimPrefix _ _ Hs), (HasPrefix_false_TrimPrefix _ _ Hh).
    now rewrite Hu, Hl. }
  rewrite E.
  destruct (minted_code_resolves h c HR) as (k & d & Hr & Hfind & Hd).
  exists (strconv.FormatInt (Z.of_nat k) 36). split; [exact Hr|].
  unfold openShortURL. rewrite TrimPrefix_app.
  unfold getOriginalURL. rewrite Hfind. cbn [decodeRecord OriginalURL snd].
  rewrite Hd, Hh. cbn [negb snd].
  destruct (strconv.FormatInt (Z.of_nat k) 36) eqn:En; [|reflexivity].
  now apply FormatInt_nonempty in En.
Qed.
End OpenShortURL.

Lemma createShortURL_then_openShortURL_witness :
  exists s,
    snd (server.createShortURL sampleHostname sampleLookup
           (Some [("url", "c.example")]) [])
      = shorturl.marshalReceipt
          {| shorturl.rOriginalURL := "c.example"; shorturl.rShortURL := s |}
    /\ snd (server.openShortURL ("/shorturl/go/" +:+ s)
              (fst (server.createShortURL sampleHostname sampleLookup
                      (Some [("url", "c.example")]) [])))
       = [server.Redirect "http://c.example" 307].
Proof.
  refine (createShortURL_then_openShortURL sampleHostname sampleLookup
            "c.example" "c.example" [("url", "c.example")] []
            shorturl.reach_empty _ _ _ _ _); reflexivity.
Defined.

(** * Creating users and adding exercises *)

Section Users.
Import exercise primitive.

Lemma FindOneByUsername_None (c : gmap string userDoc) uname :
  (forall k d, c !! k = Some d -> username d <> uname) ->
  FindOneByUsername c uname = None.
Proof.
  intros H. unfold FindOneByUsername.
  destruct (List.find _ (map_to_list c)) as [[k d]|] eqn:E; [|reflexivity].
  apply find_some in E as [Hin Hn]. cbn in Hn.
  apply list_elem_of_In, elem_of_map_to_list in Hin.
  apply String.eqb_eq in Hn. now apply H in Hin.
Qed.

Lemma FindOneByUsername_Some (c : gmap string userDoc) uname u :
  FindOneByUsername c uname = Some u ->
  exists d, c !! uID u = Some d /\ username d = uname /\ uUsername u = uname.
Proof.
  unfold FindOneByUsername.
  destruct (List.find _ (map_to_list c)) as [[k d]|] eqn:E; [|discriminate].
  intros H. injection H as <-. cbn.
  apply find_some in E as [Hin Hn]. cbn in Hn.
  apply list_elem_of_In, elem_of_map_to_list in Hin.
  apply String.eqb_eq in Hn. eauto.
Qed.

Lemma FindOneByUsername_present (c : gmap string userDoc) uname k d :
  c !! k = Some d -> username d = uname ->
  exists u, FindOneByUsername c uname = Some u.
Proof.
  intros Hk Hn. unfold FindOneByUsername.
  destruct (List.find _ (map_to_list c)) as [kv|] eqn:E; [eauto|].
  exfalso. assert (Hf := find_none _ _ E (k, d)). cbn in Hf.
  rewrite (proj2 (String.eqb_eq _ _) Hn) in Hf.
  enough (true = false) by discriminate. apply Hf.
  apply list_elem_of_In. now apply elem_of_map_to_list.
Qed.

Lemma createExerciseUser_eq newID uname (c : gmap string userDoc) :
  (forall k d, c !! k = Some d -> username d <> uname) ->
  c !! newID = None ->
  createExerciseUser newID uname c
    = (<[newID := mkUser uname None]> c,
       Encoded (marshalUser (mkExerciseUser (SprintfV newID) uname))).
Proof.
  intros Hn Hid. unfold createExerciseUser, InsertOne.
  now rewrite (FindOneByUsername_None c uname Hn), Hid.
Qed.

Lemma users_no_dave k d : users !! k = Some d -> username d <> "dave".
Proof.
  intros Hk Hn.
  destruct (FindOneByUsername_present users "dave" k d Hk Hn) as [u Hu].
  vm_compute in Hu. discriminate.
Qed.

(** X9: creating a user whose name no stored user has, under an id the
    collection does not hold, stores one new document with that name and
    no log, leaves every other document alone, and answers with the name
    and the [%v] text of the new id. *)
Theorem createExerciseUser_new_username newID uname (c : gmap string userDoc) :
  (forall k d, c !! k = Some d -> username d <> uname) ->
  c !! newID = None ->
  createExerciseUser newID uname c
    = (<[newID := mkUser uname None]> c,
       Encoded (marshalUser (mkExerciseUser (SprintfV newID) uname)))
  /\ fst (createExerciseUser newID uname c) !! newID = Some (mkUser uname None)
  /\ forall k, k <> newID -> fst (createExerciseUser newID uname c) !! k = c !! k.
Proof.
  intros Hn Hid. rewrite (createExerciseUser_eq _ _ _ Hn Hid).
  cbn [fst]. split; [reflexivity|]. split.
  - apply lookup_insert_eq.
  - intros k Hk. now apply lookup_insert_ne.
Qed.

Lemma createExerciseUser_new_username_witness :
  createExerciseUser dave "dave" users
  = (<[dave := mkUser "dave" None]> users,
     Encoded (marshalUser (mkExerciseUser (SprintfV dave) "dave"))).
Proof.
  refine (proj1 (createExerciseUser_new_username dave "dave" users _ _)).
  - exact users_no_dave.
  - vm_compute. reflexivity.
Defined.

Lemma createExerciseUser_taken newID uname (c : gmap string userDoc) k d :
  c !! k = Some d -> username d = uname ->
  exists k' d',
    c !! k' = Some d' /\ username d' = uname
    /\ createExerciseUser newID uname c
       = (c, Encoded (marshalUser (mkExerciseUser k' uname))).
Proof.
  intros Hk Hn.
  destruct (FindOneByUsername_present c uname k d Hk Hn) as [u Hu].
  destruct (FindOneByUsername_Some c uname u Hu) as (d' & Hd' & Hn' & Hu').
  exists (uID u), d'. split; [exact Hd'|]. split; [exact Hn'|].
  unfold createExerciseUser, InsertOne. rewrite Hu.
  destruct u as [i n]. cbn in *. rewrite Hu. now subst n.
Qed.

(** X10: creating a user whose name a stored user already has changes
    nothing in the collection and answers with the id, in hex, and the name
    of a stored user of that name. *)
Theorem createExerciseUser_taken_username newID uname (c : gmap string userDoc) k d :
  c !! k = Some d -> username d = uname ->
  exists k' d',
    c !! k' = Some d' /\ username d' = uname
    /\ createExerciseUser newID uname c
       = (c, Encoded (marshalUser (mkExerciseUser k' uname))).
Proof. apply createExerciseUser_taken. Qed.

Lemma createExerciseUser_taken_username_witness :
  exists k' d',
    users !! k' = Some d' /\ username d' = "bob"
    /\ createExerciseUser dave "bob" users
       = (users, Encoded (marshalUser (mkExerciseUser k' "bob"))).
Proof.
  refine (createExerciseUser_taken_username dave "bob" users bob
            (mkUser "bob" None) _ _).
  - vm_compute. reflexivity.
  - reflexivity.
Defined.

Lemma length_append s t :
  String.length (s +:+ t) = (String.length s + String.length t)%nat.
Proof.
  induction s as [|a s IH]; [reflexivity|].
  change (S (String.length (s +:+ t)) = S (String.length s + String.length t)).
  now rewrite IH.
Qed.

Lemma SprintfV_not_hex id : SprintfV id <> id.
Proof.
  intros H. apply (f_equal String.length) in H.
  unfold SprintfV in H. rewrite !length_append in H. cbn in H. lia.
Qed.

(** X11: creating the same new user twice stores one document; the first
    answer holds the [%v] text of the id, the second the hex id itself, and
    the two texts differ. *)
Theorem createExerciseUser_twice id1 id2 uname (c : gmap string userDoc) :
  (forall k d, c !! k = Some d -> username d <> uname) ->
  c !! id1 = None ->
  let c1 := fst (createExerciseUser id1 uname c) in
  snd (createExerciseUser id1 uname c)
    = Encoded (marshalUser (mkExerciseUser (SprintfV id1) uname))
  /\ createExerciseUser id2 uname c1
     = (c1, Encoded (marshalUser (mkExerciseUser id1 uname)))
  /\ SprintfV id1 <> id1.
Proof.
  intros Hn Hid c1.
  subst c1. rewrite (createExerciseUser_eq _ _ _ Hn Hid). cbn [fst snd].
  assert (Hnew : (<[id1 := mkUser uname None]> c) !! id1 = Some (mkUser uname None))
    by apply lookup_insert_eq.
  split; [reflexivity|]. split; [|apply SprintfV_not_hex].
  destruct (createExerciseUser_taken id2 uname _ id1 _ Hnew eq_refl)
    as (k' & d' & Hk' & Hn' & ->).
  destruct (decide (k' = id1)) as [->|Hne]; [reflexivity|].
  rewrite lookup_insert_ne in Hk' by done. now apply Hn in Hk'.
Qed.

Lemma createExerciseUser_twice_witness :
  snd (createExerciseUser dave "dave" users)
    = Encoded (marshalUser (mkExerciseUser (SprintfV dave) "dave"))
  /\ createExerciseUser alice "dave" (fst (createExerciseUser dave "dave" users))
     = (fst (createExerciseUser dave "dave" users),
        Encoded (marshalUser (mkExerciseUser dave "dave")))
  /\ SprintfV dave <> dave.
Proof.
  refine (createExerciseUser_twice dave alice "dave" users _ _).
  - exact users_no_dave.
  - vm_compute. reflexivity.
Defined.
End Users.

Section Exercises.
Import exercise primitive.

Lemma addExercise_eq now userID desc duration date (c : gmap string userDoc)
    oid n t nm lg :
  ObjectIDFromHex userID = Some oid ->
  strconv.Atoi duration = Some n ->
  entryDate now date = Some t ->
  c !! oid = Some (mkUser nm lg) ->
  addExerciseToUser now userID desc duration date c
  = (<[oid := mkUser nm (Some (default [] lg ++ [mkExercise desc n t]))]> c,
     marshalAddedReceipt (mkReceipt oid nm desc n t)).
Proof.
  intros Hid Hn Ht Hc. unfold addExerciseToUser, IsValidObjectID.
  rewrite Hid, Hn. cbn [isSome negb]. unfold entryDate in Ht. rewrite Ht.
  unfold FindOneAndUpdate. now rewrite Hc.
Qed.

Lemma query_unfiltered userID oid fromDate toDate limit (c : gmap string userDoc) nm es :
  ObjectIDFromHex userID = Some oid ->
  c !! oid = Some (mkUser nm (Some es)) ->
  dateParam fromDate = None -> dateParam toDate = None -> limitParam limit = None ->
  getExerciseLogsFromUser userID fromDate toDate limit c
  = Returns (marshalUserRecord (mkRecord oid nm es)).
Proof.
  intros Hid Hc Hf Ht Hl. rewrite (query_answer _ _ _ _ _ _ Hid).
  rewrite Hf, Ht, Hl. unfold yielded. rewrite Hc. cbn [anyValid isSome orb].
  unfold respond. cbn [head]. now rewrite Decode_whole.
Qed.

(** X12: with a well-formed id of a stored user, an integer duration and
    a date that is empty or parses, the exercise goes to the end of that
    user's log (a log is started when there was none), no other user
    changes, the receipt holds the user's id and name with the new entry,
    and the unfiltered query that follows shows the longer log. *)
Theorem addExerciseToUser_appends now userID desc duration date
    (c : gmap string userDoc) oid n t nm lg :
  ObjectIDFromHex userID = Some oid ->
  strconv.Atoi duration = Some n ->
  entryDate now date = Some t ->
  c !! oid = Some (mkUser nm lg) ->
  let newLog := default [] lg ++ [mkExercise desc n t] in
  addExerciseToUser now userID desc duration date c
    = (<[oid := mkUser nm (Some newLog)]> c,
       marshalAddedReceipt (mkReceipt oid nm desc n t))
  /\ (forall k, k <> oid ->
        fst (addExerciseToUser now userID desc duration date c) !! k = c !! k)
  /\ getExerciseLogsFromUser userID "" "" ""
       (fst (addExerciseToUser now userID desc duration date c))
     = Returns (marshalUserRecord (mkRecord oid nm newLog)).
Proof.
  intros Hid Hn Ht Hc newLog.
  rewrite (addExercise_eq _ _ _ _ _ _ _ _ _ _ _ Hid Hn Ht Hc). cbn [fst].
  split; [reflexivity|]. split.
  - intros k Hk. now apply lookup_insert_ne.
  - apply (query_unfiltered _ oid); try reflexivity; try assumption.
    apply lookup_insert_eq.
Qed.

Lemma addExerciseToUser_appends_witness :
  addExerciseToUser 0 alice "walk" "15" "2023-03-01" users
  = (<[alice := mkUser "alice"
                  (Some ([feb01; jan01; jan15]
                         ++ [mkExercise "walk" 15 (time.Date 2023 3 1)]))]> users,
     marshalAddedReceipt (mkReceipt alice "alice" "walk" 15 (time.Date 2023 3 1))).
Proof.
  refine (proj1 (addExerciseToUser_appends 0 alice "walk" "15" "2023-03-01" users
                   alice 15 (time.Date 2023 3 1) "alice"
                   (Some [feb01; jan01; jan15]) _ _ _ _)); reflexivity.
Defined.

Lemma marshalAddedReceipt_not_error r msg : marshalAddedReceipt r <> json.error msg.
Proof. unfold marshalAddedReceipt, json.error. discriminate. Qed.

(** X13: whenever [addExerciseToUser] answers with an error payload the
    collection is as it was; a date that is not empty and does not parse
    is answered invalid date, and an id no user has is answered with the
    text that ends in the id as it was given. *)
Theorem addExerciseToUser_errors now userID desc duration date
    (c : gmap string userDoc) :
  (forall msg,
     snd (addExerciseToUser now userID desc duration date c) = json.error msg ->
     fst (addExerciseToUser now userID desc duration date c) = c)
  /\ (forall oid n,
        ObjectIDFromHex userID = Some oid -> strconv.Atoi duration = Some n ->
        entryDate now date = None ->
        snd (addExerciseToUser now userID desc duration date c)
        = json.error "invalid date")
  /\ (forall oid n t,
        ObjectIDFromHex userID = Some oid -> strconv.Atoi duration = Some n ->
        entryDate now date = Some t -> c !! oid = None ->
        snd (addExerciseToUser now userID desc duration date c)
        = json.error ("unable to add exercise to" +:+ userID)).
Proof.
  split; [|split].
  - intros msg. unfold addExerciseToUser, IsValidObjectID.
    destruct (ObjectIDFromHex userID) as [oid|]; cbn [isSome negb]; [|reflexivity].
    destruct (strconv.Atoi duration) as [n|]; [|reflexivity].
    destruct (if (0 <? String.length date)%nat then time.Parse date else Some now)
      as [t|]; [|reflexivity].
    unfold FindOneAndUpdate. destruct (c !! oid) as [d|]; [|reflexivity].
    cbn [fst snd]. intros H. now apply marshalAddedReceipt_not_error in H.
  - intros oid n Hid Hn Ht. unfold addExerciseToUser, IsValidObjectID.
    rewrite Hid, Hn. cbn [isSome negb]. unfold entryDate in Ht. now rewrite Ht.
  - intros oid n t Hid Hn Ht Hc. unfold addExerciseToUser, IsValidObjectID.
    rewrite Hid, Hn. cbn [isSome negb]. unfold entryDate in Ht. rewrite Ht.
    unfold FindOneAndUpdate. now rewrite Hc.
Qed.

Lemma addExerciseToUser_errors_witness :
  addExerciseToUser 0 alice "walk" "15" "March 1st" users
  = (users, json.error "invalid date").
Proof.
  destruct (addExerciseToUser_errors 0 alice "walk" "15" "March 1st" users)
    as (H1 & H2 & _).
  specialize (H2 alice 15 eq_refl eq_refl eq_refl).
  specialize (H1 _ H2).
  destruct (addExerciseToUser 0 alice "walk" "15" "March 1st" users).
  cbn [fst snd] in *. now subst.
Defined.

(** X14: a user that was just created is answered by the nil body until
    an exercise is added; the first exercise is acknowledged with the
    user's hex id and name, and the unfiltered query then returns the
    user with that one entry. *)
Theorem user_lifecycle now newID userID uname desc duration date n t
    (c : gmap string userDoc) :
  (forall k d, c !! k = Some d -> username d <> uname) ->
  c !! newID = None ->
  ObjectIDFromHex userID = Some newID ->
  strconv.Atoi duration = Some n ->
  entryDate now date = Some t ->
  let c1 := fst (createExerciseUser newID uname c) in
  let c2 := fst (addExerciseToUser now userID desc duration date c1) in
  getExerciseLogsFromUser userID "" "" "" c1 = Returns json.Nil
  /\ snd (addExerciseToUser now userID desc duration date c1)
     = marshalAddedReceipt (mkReceipt newID uname desc n t)
  /\ getExerciseLogsFromUser userID "" "" "" c2
     = Returns (marshalUserRecord (mkRecord newID uname [mkExercise desc n t])).
Proof.
  intros Hname Hnew Hid Hn Ht c1 c2. subst c2 c1.
  rewrite (createExerciseUser_eq _ _ _ Hname Hnew). cbn [fst].
  assert (H1 : (<[newID := mkUser uname None]> c) !! newID = Some (mkUser uname None))
    by apply lookup_insert_eq.
  rewrite (addExercise_eq _ _ _ _ _ _ _ _ _ _ _ Hid Hn Ht H1). cbn [fst snd default app].
  split; [|split; [reflexivity|]].
  - rewrite (query_answer _ _ _ _ _ _ Hid). unfold yielded. now rewrite H1.
  - apply (query_unfiltered _ newID); try reflexivity; try assumption.
    apply lookup_insert_eq.
Qed.

Lemma user_lifecycle_witness :
  getExerciseLogsFromUser dave "" "" "" (fst (createExerciseUser dave "dave" users))
  = Returns json.Nil
  /\ snd (addExerciseToUser 7 dave "walk" "15" ""
            (fst (createExerciseUser dave "dave" users)))
     = marshalAddedReceipt (mkReceipt dave "dave" "walk" 15 7)
  /\ getExerciseLogsFromUser dave "" "" ""
       (fst (addExerciseToUser 7 dave "walk" "15" ""
               (fst (createExerciseUser dave "dave" users))))
     = Returns (marshalUserRecord (mkRecord dave "dave" [mkExercise "walk" 15 7])).
Proof.
  refine (user_lifecycle 7 dave dave "dave" "walk" "15" "" 15 7 users _ _ _ _ _);
    try reflexivity.
  exact users_no_dave.
Defined.
End Exercises.

(** * More of the log query *)

Section QueryMore.
Import exercise primitive.

Lemma sublist_List_filter {A} (p : A -> bool) (l : list A) :
  List.filter p l `sublist_of` l.
Proof.
  induction l as [|x l IH]; [constructor|].
  cbn. destruct (p x); now constructor.
Qed.

Lemma Forall_List_filter {A} (p : A -> bool) (l : list A) :
  Forall (fun x => p x = true) (List.filter p l).
Proof.
  induction l as [|x l IH]; [constructor|].
  cbn. destruct (p x) eqn:E; [now constructor|exact IH].
Qed.

Lemma StronglySorted_sublist {A} (R : A -> A -> Prop) (l1 l2 : list A) :
  l1 `sublist_of` l2 -> StronglySorted R l2 -> StronglySorted R l1.
Proof.
  induction 1 as [|x l1 l2 Hs IH|x l1 l2 Hs IH]; intros H2.
  - constructor.
  - apply StronglySorted_inv in H2 as [H2 Hall]. constructor; [now apply IH|].
    apply Forall_forall. intros y Hy.
    rewrite Forall_forall in Hall. apply Hall. eapply elem_of_sublist; eauto.
  - apply StronglySorted_inv in H2 as [H2 _]. now apply IH.
Qed.

Lemma cap_sublist {A} n (l : list A) : cap n l `sublist_of` l.
Proof. destruct n; [apply sublist_take|reflexivity]. Qed.

Lemma selectLog_sublist f t n es : selectLog f t n es `sublist_of` sortByDate es.
Proof.
  unfold selectLog. etransitivity; [apply cap_sublist|apply sublist_List_filter].
Qed.

(** X15: when none of the three filters is valid, the user's log, empty
    or not, comes back whole and in its stored order. *)
Theorem queryLogs_no_filter_stored_order userID oid fromDate toDate limit
    (c : gmap string userDoc) nm es :
  ObjectIDFromHex userID = Some oid ->
  c !! oid = Some (mkUser nm (Some es)) ->
  dateParam fromDate = None -> dateParam toDate = None -> limitParam limit = None ->
  getExerciseLogsFromUser userID fromDate toDate limit c
  = Returns (marshalUserRecord (mkRecord oid nm es)).
Proof. apply query_unfiltered. Qed.

Lemma queryLogs_no_filter_stored_order_witness :
  getExerciseLogsFromUser alice "soon" "" "all" users
  = Returns (marshalUserRecord (mkRecord alice "alice" [feb01; jan01; jan15])).
Proof.
  refine (queryLogs_no_filter_stored_order alice alice "soon" "" "all" users
            "alice" [feb01; jan01; jan15] _ _ _ _ _); reflexivity.
Defined.

(** X16: a query with a valid filter, the limit absent or positive, on a
    user with a log is answered by the nil body when no entry is kept and
    by the user's document otherwise.  The kept entries are taken in order
    from the log sorted by date, so they are in date order; each lies in
    the date range; they are no more than the limit. *)
Theorem queryLogs_filtered_outcomes userID oid fromDate toDate limit
    (c : gmap string userDoc) nm es :
  ObjectIDFromHex userID = Some oid ->
  c !! oid = Some (mkUser nm (Some es)) ->
  anyValid (dateParam fromDate) (dateParam toDate) (limitParam limit) = true ->
  capAccepted (limitParam limit) = true ->
  let kept := selectLog (dateParam fromDate) (dateParam toDate) (limitParam limit) es in
  getExerciseLogsFromUser userID fromDate toDate limit c
    = match kept with
      | [] => Returns json.Nil
      | _ => Returns (marshalUserRecord (mkRecord oid nm kept))
      end
  /\ kept `sublist_of` sortByDate es
  /\ StronglySorted (fun a b => Date a <= Date b) kept
  /\ Forall (fun e => inRange (dateParam fromDate) (dateParam toDate) e = true) kept
  /\ (forall k, limitParam limit = Some k -> (length kept <= Z.to_nat k)%nat).
Proof.
  intros Hid Hc Hany Hcap kept. split; [|split; [|split; [|split]]].
  - rewrite (query_answer _ _ _ _ _ _ Hid). unfold yielded.
    rewrite Hc, Hany, Hcap.
    fold kept. destruct kept as [|e l] eqn:E; [reflexivity|].
    unfold respond. cbn [head]. now rewrite Decode_whole.
  - apply selectLog_sublist.
  - eapply StronglySorted_sublist; [apply selectLog_sublist|apply sortByDate_sorted].
  - apply Forall_forall. intros e He.
    assert (Hin : e ∈ List.filter (inRange (dateParam fromDate) (dateParam toDate))
                        (sortByDate es))
      by (eapply elem_of_sublist; [exact He|apply cap_sublist]).
    pose proof (Forall_List_filter (inRange (dateParam fromDate) (dateParam toDate))
                  (sortByDate es)) as Hall.
    rewrite Forall_forall in Hall. now apply Hall.
  - intros k Hk. subst kept. unfold selectLog. rewrite Hk. cbn [cap].
    rewrite length_take. lia.
Qed.

Lemma queryLogs_filtered_outcomes_witness :
  getExerciseLogsFromUser alice "2023-01-10" "2023-12-31" "5" users
  = Returns (marshalUserRecord (mkRecord alice "alice" [jan15; feb01])).
Proof.
  refine (proj1 (queryLogs_filtered_outcomes
                   alice alice "2023-01-10" "2023-12-31" "5" users "alice"
                   [feb01; jan01; jan15] _ _ _ _)); reflexivity.
Defined.

Lemma List_filter_none {A} (p : A -> bool) (l : list A) :
  (forall x, p x = false) -> List.filter p l = [].
Proof.
  intros H. induction l as [|x l IH]; [reflexivity|]. cbn. now rewrite H.
Qed.

(** X17: a range whose to date is before its from date is answered by the
    nil body for every id and collection, the limit being absent or
    positive. *)
Theorem queryLogs_inverted_range userID oid fromDate toDate limit f t
    (c : gmap string userDoc) :
  ObjectIDFromHex userID = Some oid ->
  dateParam fromDate = Some f -> dateParam toDate = Some t -> t < f ->
  capAccepted (limitParam limit) = true ->
  getExerciseLogsFromUser userID fromDate toDate limit c = Returns json.Nil.
Proof.
  intros Hid Hf Ht Hlt Hcap. rewrite (query_answer _ _ _ _ _ _ Hid).
  rewrite Hf, Ht. unfold yielded. rewrite Hcap. cbn [anyValid isSome orb negb andb].
  assert (Hsel : forall es, selectLog (Some f) (Some t) (limitParam limit) es = []).
  { intros es. unfold selectLog. rewrite List_filter_none.
    - destruct (limitParam limit); [apply take_nil|reflexivity].
    - intros e. unfold inRange.
      destruct (Z.leb_spec f (Date e)), (Z.leb_spec (Date e) t); try reflexivity; lia. }
  destruct (c !! oid) as [[nm [es|]]|]; try reflexivity.
  now rewrite Hsel.
Qed.

Lemma queryLogs_inverted_range_witness :
  getExerciseLogsFromUser alice "2023-02-01" "2023-01-01" "" users = Returns json.Nil.
Proof.
  refine (queryLogs_inverted_range
            alice alice "2023-02-01" "2023-01-01" ""
            (time.Date 2023 2 1) (time.Date 2023 1 1) users _ _ _ _ _);
    try reflexivity.
Defined.

(** X18: a limit alone that is at least the size of the log returns every
    entry, in date order and not in the stored order. *)
Theorem queryLogs_large_limit_date_order userID oid fromDate toDate limit k
    (c : gmap string userDoc) nm es :
  ObjectIDFromHex userID = Some oid ->
  c !! oid = Some (mkUser nm (Some es)) ->
  es <> [] ->
  dateParam fromDate = None -> dateParam toDate = None ->
  limitParam limit = Some k -> Z.of_nat (length es) <= k ->
  getExerciseLogsFromUser userID fromDate toDate limit c
  = Returns (marshalUserRecord (mkRecord oid nm (sortByDate es))).
Proof.
  intros Hid Hc Hne Hf Ht Hl Hk. rewrite (query_answer _ _ _ _ _ _ Hid).
  rewrite Hf, Ht, Hl. unfold yielded. rewrite Hc.
  cbn [anyValid isSome orb capAccepted].
  assert (Hlen : length (sortByDate es) = length es)
    by apply Permutation_length, sortOn_perm.
  assert (0 < k) by (destruct es; [congruence|cbn in Hk; lia]).
  replace (0 <? k) with true by (symmetry; now apply Z.ltb_lt).
  assert (Hsel : selectLog None None (Some k) es = sortByDate es).
  { unfold selectLog, cap, inRange. cbn [andb].
    rewrite filter_true. apply take_ge. lia. }
  rewrite Hsel. destruct (sortByDate es) as [|e l] eqn:E.
  - destruct es; [congruence|discriminate].
  - unfold respond. cbn [head]. now rewrite Decode_whole.
Qed.

Lemma queryLogs_large_limit_date_order_witness :
  getExerciseLogsFromUser alice "" "" "10" users
  = Returns (marshalUserRecord (mkRecord alice "alice" [jan01; jan15; feb01])).
Proof.
  refine (queryLogs_large_limit_date_order
            alice alice "" "" "10" 10 users "alice" [feb01; jan01; jan15]
            _ _ _ _ _ _ _); try reflexivity.
  - discriminate.
  - simpl. lia.
Defined.
End QueryMore.

(** * Splitting at the first occurrence of a byte *)

Section IndexFacts.
Import Strings.

Lemma Index_byte_nil ch : Index EmptyString (String ch EmptyString) = -1.
Proof. reflexivity. Qed.

Lemma Index_byte_cons ch b r :
  Index (String b r) (String ch EmptyString)
  = if Ascii.eqb ch b then 0
    else if Index r (String ch EmptyString) <? 0 then -1
         else Index r (String ch EmptyString) + 1.
Proof.
  cbn [Index]. unfold HasPrefix. cbn [CutPrefix].
  destruct (Ascii.eqb ch b); [now destruct r|reflexivity].
Qed.

Lemma Index_absent ch s :
  hasByte ch s = false -> Index s (String ch EmptyString) = -1.
Proof.
  induction s as [|b r IH]; intros H; [reflexivity|].
  cbn [hasByte] in H. apply orb_false_iff in H as [Hb Hr].
  rewrite Index_byte_cons, (Ascii.eqb_sym ch b), Hb, (IH Hr). reflexivity.
Qed.

Lemma Index_first ch k v :
  hasByte ch k = false ->
  Index (k +:+ String ch v) (String ch EmptyString) = Z.of_nat (String.length k).
Proof.
  induction k as [|b k IH]; intros H.
  - change (EmptyString +:+ String ch v) with (String ch v).
    now rewrite Index_byte_cons, Ascii.eqb_refl.
  - cbn [hasByte] in H. apply orb_false_iff in H as [Hb Hk].
    change (String b k +:+ String ch v) with (String b (k +:+ String ch v)).
    rewrite Index_byte_cons, (Ascii.eqb_sym ch b), Hb, (IH Hk).
    cbn [String.length]. destruct (Z.ltb_spec (Z.of_nat (String.length k)) 0); lia.
Qed.

Lemma firstn_app k r : firstn (String.length k) (k +:+ r) = k.
Proof.
  induction k as [|b k IH]; [now destruct r|].
  change (String b k +:+ r) with (String b (k +:+ r)). cbn. now rewrite IH.
Qed.

Lemma skipn_app k r : skipn (String.length k) (k +:+ r) = r.
Proof.
  induction k as [|b k IH]; [now destruct r|].
  change (String b k +:+ r) with (String b (k +:+ r)). cbn. exact IH.
Qed.

Lemma sliceTo_first ch k v :
  hasByte ch k = false ->
  sliceTo (k +:+ String ch v) (Index (k +:+ String ch v) (String ch EmptyString))
  = Some k.
Proof.
  intros H. rewrite (Index_first _ _ _ H). unfold sliceTo.
  rewrite length_append, Nat2Z.id, firstn_app.
  destruct (Z.leb_spec 0 (Z.of_nat (String.length k))); [|lia].
  destruct (Z.leb_spec (Z.of_nat (String.length k))
              (Z.of_nat (String.length k + String.length (String ch v)))); [|lia].
  reflexivity.
Qed.

Lemma sliceFrom_first ch k v :
  hasByte ch k = false ->
  sliceFrom (k +:+ String ch v)
    (Index (k +:+ String ch v) (String ch EmptyString) + 1)
  = Some v.
Proof.
  intros H. rewrite (Index_first _ _ _ H). unfold sliceFrom.
  rewrite length_append. cbn [String.length].
  replace (Z.to_nat (Z.of_nat (String.length k) + 1)) with (S (String.length k)) by lia.
  replace (skipn (S (String.length k)) (k +:+ String ch v)) with v.
  - destruct (Z.leb_spec 0 (Z.of_nat (String.length k) + 1)); [|lia].
    destruct (Z.leb_spec (Z.of_nat (String.length k) + 1)
                (Z.of_nat (String.length k + S (String.length v)))); [|lia].
    reflexivity.
  - symmetry. change (String ch v) with (String ch EmptyString +:+ v).
    clear H. induction k as [|b k IH]; [reflexivity|].
    change (String b k +:+ String ch EmptyString +:+ v)
      with (String b (k +:+ String ch EmptyString +:+ v)).
    cbn [skipn String.length]. exact IH.
Qed.

Lemma sliceTo_absent ch s :
  hasByte ch s = false -> sliceTo s (Index s (String ch EmptyString)) = None.
Proof. intros H. now rewrite (Index_absent _ _ H). Qed.
End IndexFacts.

(** * [loadEnvVars] *)

Section LoadEnv.
Import Strings loadenv.

Lemma loadEnvVars_step kv rest env :
  wellFormed kv ->
  loadEnvVars (lineOf kv :: rest) env = loadEnvVars rest (<[fst kv := snd kv]> env).
Proof.
  destruct kv as [k v]. intros (Hne & Heq & Hzk & Hzv). cbn [fst snd] in *.
  unfold lineOf. cbn [fst snd loadEnvVars].
  change (k +:+ "=" +:+ v) with (k +:+ String "=" v).
  rewrite (sliceTo_first _ _ _ Heq), (sliceFrom_first _ _ _ Heq).
  unfold Setenv. rewrite Heq, Hzk, Hzv.
  destruct k; [congruence|reflexivity].
Qed.

(** X19: when every line is a key, an = and a value (the key not empty,
    no zero byte), the loader sets each key to its value, splitting at the
    first = so that a value may hold one, and a key set twice keeps the
    last value. *)
Theorem loadEnvVars_sets_every_line kvs env :
  Forall wellFormed kvs ->
  loadEnvVars (lineOf <$> kvs) env = Loaded (setAll kvs env)
  /\ forall k v kvs', kvs = kvs' ++ [(k, v)] -> setAll kvs env !! k = Some v.
Proof.
  intros H. split.
  - revert env. induction H as [|kv kvs Hkv _ IH]; intros env; [reflexivity|].
    cbn [fmap list_fmap]. rewrite (loadEnvVars_step _ _ _ Hkv). apply IH.
  - intros k v kvs' ->. unfold setAll. rewrite foldl_app. cbn.
    apply lookup_insert_eq.
Qed.

Lemma loadEnvVars_sets_every_line_witness :
  loadEnvVars ["DB_NAME=fcc"; "DB_URI=mongodb://h/?a=b"; "DB_NAME=test"] ∅
  = Loaded (<["DB_NAME" := "test"]>
              (<["DB_URI" := "mongodb://h/?a=b"]> (<["DB_NAME" := "fcc"]> ∅))).
Proof.
  refine (proj1 (loadEnvVars_sets_every_line
                   [("DB_NAME", "fcc"); ("DB_URI", "mongodb://h/?a=b");
                    ("DB_NAME", "test")] ∅ _)).
  repeat constructor; discriminate.
Defined.

(** X20: after lines that load, a line with no = in it, an empty line
    included, ends the loader in the panic of a slice bound, and a line
    that starts with = ends it in [log.Fatal]. *)
Theorem loadEnvVars_bad_line kvs line rest env :
  Forall wellFormed kvs ->
  (hasByte "=" line = false ->
   loadEnvVars ((lineOf <$> kvs) ++ line :: rest) env = SlicePanic)
  /\ (forall v, line = "=" +:+ v ->
      loadEnvVars ((lineOf <$> kvs) ++ line :: rest) env = Fatal).
Proof.
  intros H. split.
  - intros Hl. revert env.
    induction H as [|kv kvs Hkv _ IH]; intros env.
    + cbn [fmap list_fmap app loadEnvVars]. now rewrite (sliceTo_absent _ _ Hl).
    + cbn [fmap list_fmap app]. rewrite (loadEnvVars_step _ _ _ Hkv). apply IH.
  - intros v ->. revert env.
    induction H as [|kv kvs Hkv _ IH]; intros env.
    + cbn [fmap list_fmap app loadEnvVars].
      change ("=" +:+ v) with (EmptyString +:+ String "=" v).
      now rewrite (sliceTo_first "=" EmptyString v eq_refl),
                  (sliceFrom_first "=" EmptyString v eq_refl).
    + cbn [fmap list_fmap app]. rewrite (loadEnvVars_step _ _ _ Hkv). apply IH.
Qed.

Lemma loadEnvVars_bad_line_witness :
  loadEnvVars ["DB_NAME=fcc"; ""; "DB_URI=x"] ∅ = SlicePanic.
Proof.
  refine (proj1 (loadEnvVars_bad_line [("DB_NAME", "fcc")] "" ["DB_URI=x"] ∅ _) _).
  - repeat constructor; discriminate.
  - reflexivity.
Defined.
End LoadEnv.

(** * The exercise handler *)

Section ExerciseHandlerFacts.
Import Strings exercise server.

Variable getAllExerciseData : gmap string userDoc -> json.Bytes.

Lemma length_pos_nonempty s : s <> EmptyString -> (0 <? String.length s)%nat = true.
Proof. destruct s; [congruence|reflexivity]. Qed.

Lemma length_zero_nonempty s : s <> EmptyString -> (String.length s =? 0)%nat = false.
Proof. destruct s; [congruence|reflexivity]. Qed.

(** X21: a GET whose path holds an id and no slash after it, the id alone
    after the prefix, ends in the panic of a slice bound. *)
Theorem handleExerciseUsersPath_GET_without_slash now newID r
    (c : gmap string userDoc) :
  Method r = "GET" ->
  TrimPrefix (Path r) "/exercise/users/" <> EmptyString ->
  hasByte "/" (TrimPrefix (Path r) "/exercise/users/") = false ->
  handleExerciseUsersPath getAllExerciseData now newID r c = (c, SliceBoundsPanic).
Proof.
  intros Hm Hne Hs. unfold handleExerciseUsersPath.
  rewrite Hm, (length_zero_nonempty _ Hne), (length_pos_nonempty _ Hne).
  cbn [andb String.eqb Ascii.eqb Bool.eqb]. cbn.
  now rewrite (sliceTo_absent _ _ Hs).
Qed.

(** X22: a GET on the prefix, an id, a slash and anything after it is
    answered by the log query on that id with the from, to and limit
    values of the query string. *)
Theorem handleExerciseUsersPath_GET_logs now newID r id rest
    (c : gmap string userDoc) :
  Method r = "GET" ->
  Path r = "/exercise/users/" +:+ id +:+ "/" +:+ rest ->
  hasByte "/" id = false ->
  handleExerciseUsersPath getAllExerciseData now newID r c
  = (c, match getExerciseLogsFromUser id (Get (Query r) "from") (Get (Query r) "to")
                (Get (Query r) "limit") c with
        | Returns logs => Wrote (Encoded logs)
        | NilCursorPanic => CursorPanic
        end).
Proof.
  intros Hm Hp Hs. unfold handleExerciseUsersPath.
  rewrite Hm, Hp, TrimPrefix_app.
  change (id +:+ "/" +:+ rest) with (id +:+ String "/" rest).
  assert (Hne : id +:+ String "/" rest <> EmptyString) by now destruct id.
  rewrite (length_zero_nonempty _ Hne), (length_pos_nonempty _ Hne).
  cbn [andb]. replace (String.eqb "GET" "GET") with true by reflexivity.
  rewrite (sliceTo_first _ _ _ Hs).
  now destruct (getExerciseLogsFromUser _ _ _ _ c).
Qed.

(** X23: a POST below the prefix takes the user id from the form value
    named :_id and not from the path: two such requests with the same form
    are answered alike, and without that form value the answer is invalid
    id, whatever id the path holds. *)
Theorem handleExerciseUsersPath_POST_id_from_form now newID r
    (c : gmap string userDoc) :
  Method r = "POST" ->
  TrimPrefix (Path r) "/exercise/users/" <> EmptyString ->
  (forall r',
     Method r' = "POST" -> TrimPrefix (Path r') "/exercise/users/" <> EmptyString ->
     Form r' = Form r ->
     handleExerciseUsersPath getAllExerciseData now newID r' c
     = handleExerciseUsersPath getAllExerciseData now newID r c)
  /\ (Get (Form r) ":_id" = EmptyString ->
      handleExerciseUsersPath getAllExerciseData now newID r c
      = (c, Wrote (Encoded (json.error "invalid id")))).
Proof.
  intros Hm Hne.
  assert (E : forall r0,
             Method r0 = "POST" ->
             TrimPrefix (Path r0) "/exercise/users/" <> EmptyString ->
             handleExerciseUsersPath getAllExerciseData now newID r0 c
             = let '(c', receipt) :=
                 addExerciseToUser now (Get (Form r0) ":_id")
                   (Get (Form r0) "description") (Get (Form r0) "duration")
                   (Get (Form r0) "date") c in
               (c', Wrote (Encoded receipt))).
  { intros r0 Hm0 Hne0. unfold handleExerciseUsersPath.
    rewrite Hm0, (length_zero_nonempty _ Hne0), (length_pos_nonempty _ Hne0).
    reflexivity. }
  split.
  - intros r' Hm' Hne' Hf. rewrite (E r' Hm' Hne'), (E r Hm Hne). now rewrite Hf.
  - intros Hid. rewrite (E r Hm Hne), Hid. reflexivity.
Qed.

(** X24: only a POST can change the collection; a method that is neither
    GET nor POST is answered by [http.NotFound]. *)
Theorem handleExerciseUsersPath_only_POST_writes now newID r
    (c : gmap string userDoc) :
  Method r <> "POST" ->
  fst (handleExerciseUsersPath getAllExerciseData now newID r c) = c
  /\ (Method r <> "GET" ->
      handleExerciseUsersPath getAllExerciseData now newID r c = (c, Answered404)).
Proof.
  intros Hp. apply String.eqb_neq in Hp. unfold handleExerciseUsersPath.
  rewrite Hp, !andb_false_r. split.
  - destruct ((String.length _ =? 0)%nat && String.eqb (Method r) "GET");
      [reflexivity|].
    destruct ((0 <? String.length _)%nat && String.eqb (Method r) "GET");
      [|reflexivity].
    destruct (sliceTo _ _); [|reflexivity].
    now destruct (getExerciseLogsFromUser _ _ _ _ c).
  - intros Hg. apply String.eqb_neq in Hg. now rewrite Hg, !andb_false_r.
Qed.

End ExerciseHandlerFacts.

Lemma handleExerciseUsersPath_GET_without_slash_witness :
  server.handleExerciseUsersPath sampleListing 0 bob
    (server.mkRequest "GET" "/exercise/users/507f1f77bcf86cd799439011" [] []) users
  = (users, server.SliceBoundsPanic).
Proof.
  refine (handleExerciseUsersPath_GET_without_slash sampleListing 0 bob
            (server.mkRequest "GET" "/exercise/users/507f1f77bcf86cd799439011" [] [])
            users _ _ _).
  - reflexivity.
  - discriminate.
  - reflexivity.
Defined.

Lemma handleExerciseUsersPath_GET_logs_witness :
  server.handleExerciseUsersPath sampleListing 0 bob
    (server.mkRequest "GET" "/exercise/users/507f1f77bcf86cd799439011/logs" []
               [("from", "2023-01-10"); ("limit", "1")]) users
  = (users, server.Wrote (exercise.Encoded (exercise.marshalUserRecord (exercise.mkRecord alice "alice" [jan15])))).
Proof.
  refine (handleExerciseUsersPath_GET_logs sampleListing 0 bob
            (server.mkRequest "GET" "/exercise/users/507f1f77bcf86cd799439011/logs" []
                       [("from", "2023-01-10"); ("limit", "1")])
            "507f1f77bcf86cd799439011" "logs" users _ _ _); reflexivity.
Defined.

Lemma handleExerciseUsersPath_POST_id_from_form_witness :
  server.handleExerciseUsersPath sampleListing 0 bob
    (server.mkRequest "POST" "/exercise/users/507f1f77bcf86cd799439011/exercises"
               [("description", "run"); ("duration", "30")] []) users
  = (users, server.Wrote (exercise.Encoded (json.error "invalid id"))).
Proof.
  refine (proj2 (handleExerciseUsersPath_POST_id_from_form sampleListing 0 bob
                   (server.mkRequest "POST"
                      "/exercise/users/507f1f77bcf86cd799439011/exercises"
                      [("description", "run"); ("duration", "30")] [])
                   users _ _) _).
  - reflexivity.
  - discriminate.
  - reflexivity.
Defined.

Lemma handleExerciseUsersPath_only_POST_writes_witness :
  server.handleExerciseUsersPath sampleListing 0 bob
    (server.mkRequest "DELETE" "/exercise/users/507f1f77bcf86cd799439011" [] []) users
  = (users, server.Answered404).
Proof.
  refine (proj2 (handleExerciseUsersPath_only_POST_writes sampleListing 0 bob
                   (server.mkRequest "DELETE" "/exercise/users/507f1f77bcf86cd799439011"
                              [] [])
                   users _) _); discriminate.
Defined.
